(** * EM API codec (emapi.c / emapi.h): a shallow embedding

    The C functions of [main.c] are rendered as Rocq functions over [Z]
    (fixed-width integers with their wrap-around written out) and lists.
    A pointer is modelled as the cells it can reach: [None] for NULL,
    [Some cells] otherwise, where [cells] runs from the pointee to the end
    of the object it lies in.  An access outside an object is undefined
    behaviour in C; the embedding reports it as a [Fault] instead of
    inventing a value. *)

From Stdlib Require Import ZArith Lia String.
From stdpp Require Import base list.

Local Open Scope Z_scope.

(** ** Fixed-width integers *)

(** Conversion to the unsigned types of <linux/types.h> ([__u8], [__u16],
    [__u32]) and to a 4-bit bit-field keeps the value modulo 2^w. *)
Definition to_u4 (x : Z) : Z := x mod 2 ^ 4.
Definition to_u8 (x : Z) : Z := x mod 2 ^ 8.
Definition to_u16 (x : Z) : Z := x mod 2 ^ 16.
Definition to_u32 (x : Z) : Z := x mod 2 ^ 32.

(** Conversion to [int] (32 bits, two's complement). *)
Definition to_int (x : Z) : Z := (x + 2 ^ 31) mod 2 ^ 32 - 2 ^ 31.

Definition is_u4 (x : Z) : Prop := 0 <= x < 2 ^ 4.
Definition is_u8 (x : Z) : Prop := 0 <= x < 2 ^ 8.
Definition is_u16 (x : Z) : Prop := 0 <= x < 2 ^ 16.
Definition is_u32 (x : Z) : Prop := 0 <= x < 2 ^ 32.

(** ** Outcomes: a returned value, or undefined behaviour *)

Inductive fault : Set :=
  | NullDeref      (* access through a NULL pointer *)
  | ReadPastEnd    (* read outside the object a pointer lies in *)
  | WritePastEnd   (* write outside the object a pointer lies in *)
  | BadCast.       (* a [void *] used at a type that is not the pointee's *)

Inductive outcome (A : Type) : Type :=
  | Ret (a : A)
  | Fault (f : fault).
Arguments Ret {A} a.
Arguments Fault {A} f.

Definition bind {A B : Type} (m : outcome A) (k : A -> outcome B) : outcome B :=
  match m with
  | Ret a => k a
  | Fault f => Fault f
  end.

Declare Scope outcome_scope.
Delimit Scope outcome_scope with outcome.
Notation "x <- m ;; k" := (bind m (fun x => k))
  (at level 100, m at next level, right associativity) : outcome_scope.
Local Open Scope outcome_scope.

(** Dereferencing a possibly-NULL pointer. *)
Definition deref {A : Type} (p : option A) : outcome A :=
  match p with
  | Some cells => Ret cells
  | None => Fault NullDeref
  end.

(** ** Byte buffers *)

(** [p[k]] as an rvalue. *)
Definition load (p : list Z) (k : nat) : outcome Z :=
  match p !! k with
  | Some v => Ret v
  | None => Fault ReadPastEnd
  end.

(** [p[k] = v] for [p] of type [__u8 *] or [char *]: the value is converted
    to the byte type. *)
Definition store (p : list Z) (k : nat) (v : Z) : outcome (list Z) :=
  if (k <? length p)%nat then Ret (<[k := to_u8 v]> p) else Fault WritePastEnd.

(** [memcpy(dst, src, n)]: [n] bytes are read from [src] and written over
    the first [n] bytes of [dst]; the result is the new content of [dst].
    When [n] exceeds both objects the read is the fault reported; C leaves
    either undefined. *)
Definition memcpy (dst src : list Z) (n : nat) : outcome (list Z) :=
  if (n <=? length src)%nat then
    if (n <=? length dst)%nat then Ret (take n src ++ drop n dst)
    else Fault WritePastEnd
  else Fault ReadPastEnd.

(** ** Macros and enumerations of emapi.h *)

Definition EMLN_HDR : Z := 12.
Definition EMLN_MSG : Z := 8192.
Definition EMLN_PAYLOAD : Z := EMLN_MSG - EMLN_HDR.
Definition EMLN_DEV_NAME : Z := 125.
Definition EMLN_DEV_NUM : Z := 64.

Definition EMOB_NULL : Z := 0.
Definition EMOB_HDR : Z := 1.
Definition EMOB_LIST_DEV : Z := 2.
Definition EMOB_MAX : Z := 3.

Definition EMMT_REQ : Z := 0.
Definition EMMT_RSP : Z := 1.
Definition EMMT_EVENT : Z := 2.
Definition EMMT_MAX : Z := 3.

Definition EMOP_EVENT : Z := 0.
Definition EMOP_LIST_DEV : Z := 1.
Definition EMOP_CONN_DEV : Z := 2.
Definition EMOP_DISCON_DEV : Z := 3.
Definition EMOP_MAX : Z := 4.

Definition EMRC_SUCCESS : Z := 0.
Definition EMRC_BACKGROUND_OP_STARTED : Z := 1.
Definition EMRC_INVALID_INPUT : Z := 2.
Definition EMRC_UNSUPPORTED : Z := 3.
Definition EMRC_INTERNAL_ERROR : Z := 4.
Definition EMRC_BUSY : Z := 5.
Definition EMRC_MAX : Z := 6.

(** ** Structures of emapi.h *)

(** [struct emapi_hdr]; the fields are prefixed with [hdr_]. *)
Record emapi_hdr : Set := mk_hdr {
  hdr_type : Z;     (* __u8 type : 4 *)
  hdr_ver : Z;      (* __u8 ver  : 4 *)
  hdr_tag : Z;      (* __u8 *)
  hdr_rc : Z;       (* __u8 *)
  hdr_opcode : Z;   (* __u8 *)
  hdr_a : Z;        (* __u8 *)
  hdr_rsvd : Z;     (* __u8 *)
  hdr_len : Z;      (* __u16 *)
  hdr_b : Z         (* __u32 *)
}.

(** The values the C type can hold. *)
Record hdr_wf (h : emapi_hdr) : Prop := {
  wf_type : is_u4 (hdr_type h);
  wf_ver : is_u4 (hdr_ver h);
  wf_tag : is_u8 (hdr_tag h);
  wf_rc : is_u8 (hdr_rc h);
  wf_opcode : is_u8 (hdr_opcode h);
  wf_a : is_u8 (hdr_a h);
  wf_rsvd : is_u8 (hdr_rsvd h);
  wf_len : is_u16 (hdr_len h);
  wf_b : is_u32 (hdr_b h)
}.

(** [memset(&h, 0, sizeof(struct emapi_hdr))]. *)
Definition hdr_zero : emapi_hdr := mk_hdr 0 0 0 0 0 0 0 0 0.

(** [struct emapi_dev]; [dev_name] is the array [char name[EMLN_DEV_NAME]]. *)
Record emapi_dev : Set := mk_dev {
  dev_id : Z;            (* __u8 *)
  dev_len : Z;           (* __u8 *)
  dev_name : list Z      (* char [EMLN_DEV_NAME] *)
}.

Record dev_wf (d : emapi_dev) : Prop := {
  wf_id : is_u8 (dev_id d);
  wf_dlen : is_u8 (dev_len d);
  wf_name : length (dev_name d) = Z.to_nat EMLN_DEV_NAME
}.

(** [memset(&d, 0, sizeof(struct emapi_dev))]. *)
Definition dev_zero : emapi_dev := mk_dev 0 0 (replicate (Z.to_nat EMLN_DEV_NAME) 0).

(** [struct emapi_msg]: the header and the union's only member,
    [dev[EMLN_DEV_NUM]]. *)
Record emapi_msg : Set := mk_msg {
  msg_hdr : emapi_hdr;
  msg_dev : list emapi_dev
}.

(** What a [void *] handed to the codec points to: one header, or an array of
    device descriptors seen from the pointee onwards. *)
Inductive object : Set :=
  | ObjHdr (h : emapi_hdr)
  | ObjDev (l : list emapi_dev).

(** The casts [(struct emapi_hdr * ) p] and [(struct emapi_dev * ) p]. *)
Definition as_hdr (o : object) : outcome emapi_hdr :=
  match o with
  | ObjHdr h => Ret h
  | ObjDev _ => Fault BadCast
  end.

Definition as_dev (o : object) : outcome (list emapi_dev) :=
  match o with
  | ObjDev l => Ret l
  | ObjHdr _ => Fault BadCast
  end.

(** ** String tables *)

Definition STR_EMMT : list string :=
  ["Request"; "Response"; "Event"]%string.

Definition STR_EMOB : list string :=
  ["Null"; "emob_hdr"; "emob_dev"]%string.

Definition STR_EMOP : list string :=
  ["Event Notification"; "List Devices"; "Connect Device"; "Disconnect Device"]%string.

Definition STR_EMRC : list string :=
  ["Success"; "Background operation started"; "Invalid input"; "Unsupported";
   "Internal error"; "Busy"]%string.

(** ** emapi_deserialize *)

(** The loop of the [EMOB_LIST_DEV] case, [n] iterations left: [k] is the
    cursor into [src] (an [unsigned]), [o] the index of the descriptor that
    the pointer [o] designates in the destination array [dst]. *)
Fixpoint deserialize_list_dev (n : nat) (src : list Z) (k : Z) (o : nat)
    (dst : list emapi_dev) : outcome (Z * list emapi_dev) :=
  match n with
  | O => Ret (k, dst)
  | S n' =>
      id <- load src (Z.to_nat k) ;;
      d <- match dst !! o with Some d => Ret d | None => Fault WritePastEnd end ;;
      let k1 := to_u32 (k + 1) in
      ln <- load src (Z.to_nat k1) ;;
      let k2 := to_u32 (k1 + 1) in
      name <- (if ln =? 0 then store (dev_name d) 0 0
               else memcpy (dev_name d) (drop (Z.to_nat k2) src) (Z.to_nat ln)) ;;
      deserialize_list_dev n' src (to_u32 (k2 + ln)) (S o)
        (<[o := mk_dev id ln name]> dst)
  end.

(** [if (param == NULL) num = 1; else num = *((unsigned * ) param);] *)
Definition count_hint (param : option Z) : Z :=
  match param with
  | None => 1
  | Some n => n
  end.

(** The result pairs the returned [int] with what [dst] points to after the
    call.  In the header case the bytes are promoted to [int] before they are
    shifted; [src[11] << 24] is taken with the two's-complement result, which
    the conversion to [__u32] then reads modulo 2^32. *)
Definition emapi_deserialize (dst : option object) (src : option (list Z))
    (type : Z) (param : option Z) : outcome (Z * option object) :=
  match dst with
  | None => Ret (-1, dst)
  | Some obj =>
      if EMOB_MAX <=? type then Ret (-1, dst)
      else if type =? EMOB_NULL then Ret (0, dst)
      else if type =? EMOB_HDR then
        o <- as_hdr obj ;;
        s <- deref src ;;
        s0 <- load s 0 ;;
        s1 <- load s 1 ;;
        s2 <- load s 2 ;;
        s3 <- load s 3 ;;
        s4 <- load s 4 ;;
        s7 <- load s 7 ;;
        s6 <- load s 6 ;;
        s11 <- load s 11 ;;
        s10 <- load s 10 ;;
        s9 <- load s 9 ;;
        s8 <- load s 8 ;;
        Ret (EMLN_HDR,
             Some (ObjHdr {|
               hdr_ver := to_u4 (Z.land (Z.shiftr s0 4) 0x0F);
               hdr_type := to_u4 (Z.land s0 0x0F);
               hdr_tag := s1;
               hdr_rc := s2;
               hdr_opcode := s3;
               hdr_a := s4;
               hdr_rsvd := hdr_rsvd o;
               hdr_len := to_u16 (Z.lor (Z.shiftl s7 8) s6);
               hdr_b := to_u32 (Z.lor (Z.lor (Z.lor (Z.shiftl s11 24) (Z.shiftl s10 16))
                                             (Z.shiftl s9 8)) s8)
             |}))
      else if type =? EMOB_LIST_DEV then
        l <- as_dev obj ;;
        let num := count_hint param in
        s <- deref src ;;
        r <- deserialize_list_dev (Z.to_nat num) s 0 0 l ;;
        Ret (to_int (fst r), Some (ObjDev (snd r)))
      else Ret (-1, dst)
  end.

(** ** emapi_fill_hdr and the message builders *)

(** The result pairs the returned [int] with what [h] points to after the
    call. *)
Definition emapi_fill_hdr (h : option emapi_hdr) (type tag rc opcode len a b : Z)
    : Z * option emapi_hdr :=
  match h with
  | None => (0, None)
  | Some h0 =>
      (to_int (EMLN_HDR + len),
       Some {|
         hdr_ver := 0;
         hdr_type := to_u4 type;
         hdr_tag := tag;
         hdr_rc := rc;
         hdr_opcode := opcode;
         hdr_len := len;
         hdr_a := a;
         hdr_b := b;
         hdr_rsvd := hdr_rsvd h0
       |})
  end.

(** [emapi_fill_conn], [emapi_fill_disconn], [emapi_fill_listdev]: the header
    is cleared, then [opcode], [a] (an [int] stored in a [__u8]) and [b] (an
    [int] stored in a [__u32]) are assigned.  The result pairs the returned
    [int] with what [m] points to after the call. *)
Definition emapi_fill_conn (m : option emapi_msg) (ppid dev : Z)
    : Z * option emapi_msg :=
  match m with
  | None => (1, None)
  | Some m0 =>
      let h := hdr_zero in
      let h := {| hdr_opcode := to_u8 EMOP_CONN_DEV;
                  hdr_a := to_u8 ppid;
                  hdr_b := to_u32 dev;
                  hdr_type := hdr_type h; hdr_ver := hdr_ver h; hdr_tag := hdr_tag h;
                  hdr_rc := hdr_rc h; hdr_rsvd := hdr_rsvd h; hdr_len := hdr_len h |} in
      (0, Some {| msg_hdr := h; msg_dev := msg_dev m0 |})
  end.

Definition emapi_fill_disconn (m : option emapi_msg) (ppid all : Z)
    : Z * option emapi_msg :=
  match m with
  | None => (1, None)
  | Some m0 =>
      let h := hdr_zero in
      let h := {| hdr_opcode := to_u8 EMOP_DISCON_DEV;
                  hdr_a := to_u8 ppid;
                  hdr_b := to_u32 all;
                  hdr_type := hdr_type h; hdr_ver := hdr_ver h; hdr_tag := hdr_tag h;
                  hdr_rc := hdr_rc h; hdr_rsvd := hdr_rsvd h; hdr_len := hdr_len h |} in
      (0, Some {| msg_hdr := h; msg_dev := msg_dev m0 |})
  end.

Definition emapi_fill_listdev (m : option emapi_msg) (num start : Z)
    : Z * option emapi_msg :=
  match m with
  | None => (1, None)
  | Some m0 =>
      let h := hdr_zero in
      let h := {| hdr_opcode := to_u8 EMOP_LIST_DEV;
                  hdr_a := to_u8 num;
                  hdr_b := to_u32 start;
                  hdr_type := hdr_type h; hdr_ver := hdr_ver h; hdr_tag := hdr_tag h;
                  hdr_rc := hdr_rc h; hdr_rsvd := hdr_rsvd h; hdr_len := hdr_len h |} in
      (0, Some {| msg_hdr := h; msg_dev := msg_dev m0 |})
  end.

(** ** emapi_serialize *)

(** The result pairs the returned [int] with what [dst] points to after the
    call.  [param] is not used by the function. *)
Definition emapi_serialize (dst : option (list Z)) (src : option object)
    (type : Z) (param : option Z) : outcome (Z * option (list Z)) :=
  if (type =? EMOB_NULL) || (EMOB_MAX <=? type) then Ret (0, dst)
  else if type =? EMOB_HDR then
    obj <- deref src ;;
    o <- as_hdr obj ;;
    d <- deref dst ;;
    d <- store d 0 (Z.lor (Z.land (Z.shiftl (hdr_ver o) 4) 0xF0)
                          (Z.land (hdr_type o) 0x0F)) ;;
    d <- store d 1 (hdr_tag o) ;;
    d <- store d 2 (hdr_rc o) ;;
    d <- store d 3 (hdr_opcode o) ;;
    d <- store d 4 (hdr_a o) ;;
    d <- store d 6 (Z.land (hdr_len o) 0x00FF) ;;
    d <- store d 7 (Z.land (Z.shiftr (hdr_len o) 8) 0x00FF) ;;
    d <- store d 8 (Z.land (hdr_b o) 0x00FF) ;;
    d <- store d 9 (Z.land (Z.shiftr (hdr_b o) 8) 0x00FF) ;;
    d <- store d 10 (Z.land (Z.shiftr (hdr_b o) 16) 0x00FF) ;;
    d <- store d 11 (Z.land (Z.shiftr (hdr_b o) 24) 0x00FF) ;;
    Ret (EMLN_HDR, Some d)
  else if type =? EMOB_LIST_DEV then
    obj <- deref src ;;
    l <- as_dev obj ;;
    o <- match l with o :: _ => Ret o | [] => Fault ReadPastEnd end ;;
    d <- deref dst ;;
    d <- store d 0 (dev_id o) ;;
    d <- store d 1 (dev_len o) ;;
    t <- memcpy (drop 2 d) (dev_name o) (Z.to_nat (dev_len o)) ;;
    Ret (to_int (dev_len o + 2), Some (take 2 d ++ t))
  else Ret (0, dst).

(** ** Shape resolution *)

Definition emapi_emob_req (opcode : Z) : Z :=
  if opcode =? EMOP_EVENT then EMOB_NULL
  else if opcode =? EMOP_LIST_DEV then EMOB_LIST_DEV
  else if opcode =? EMOP_CONN_DEV then EMOB_NULL
  else if opcode =? EMOP_DISCON_DEV then EMOB_NULL
  else EMOB_NULL.

Definition emapi_emob_rsp (opcode : Z) : Z :=
  if opcode =? EMOP_EVENT then EMOB_NULL
  else if opcode =? EMOP_LIST_DEV then EMOB_LIST_DEV
  else if opcode =? EMOP_CONN_DEV then EMOB_NULL
  else if opcode =? EMOP_DISCON_DEV then EMOB_NULL
  else EMOB_NULL.

(** ** Name lookups: [NULL] is [None] *)

Definition emmt (u : Z) : option string :=
  if EMMT_MAX <=? u then None else STR_EMMT !! Z.to_nat u.

Definition emob (u : Z) : option string :=
  if EMOB_MAX <=? u then None else STR_EMOB !! Z.to_nat u.

Definition emop (u : Z) : option string :=
  if EMOP_MAX <=? u then None else STR_EMOP !! Z.to_nat u.

Definition emrc (u : Z) : option string :=
  if EMRC_MAX <=? u then None else STR_EMRC !! Z.to_nat u.

(** ** Console output: emapi_prnt

    A call of [printf] is recorded with its format string and arguments; a
    [%s] argument is the C string that is read, up to its terminator. *)

Inductive arg : Set :=
  | ArgInt (v : Z)
  | ArgStr (s : list Z).

Inductive event : Set :=
  | Printf (fmt : string) (args : list arg)
  | PrntBuf (buf : list Z) (len width print_header : Z).   (* autl_prnt_buf *)

(** The newline of a C string literal. *)
Definition nl : string := String (Ascii.ascii_of_nat 10) EmptyString.

(** The bytes of the C string at [p], terminator excluded.  Running off the
    end of the array [p] lies in before a NUL is met is a read past its end. *)
Fixpoint c_string (p : list Z) : outcome (list Z) :=
  match p with
  | [] => Fault ReadPastEnd
  | c :: p' => if c =? 0 then Ret [] else (s <- c_string p' ;; Ret (c :: s))
  end.

Definition emapi_prnt_hdr (ptr : option object) : outcome (list event) :=
  obj <- deref ptr ;;
  o <- as_hdr obj ;;
  Ret [ Printf ("emapi_hdr:" ++ nl) [];
        Printf ("Version:           0x%02x" ++ nl) [ArgInt (hdr_ver o)];
        Printf ("Type:              0x%02x" ++ nl) [ArgInt (hdr_type o)];
        Printf ("Tag:               0x%02x" ++ nl) [ArgInt (hdr_tag o)];
        Printf ("Return Code:       0x%02x" ++ nl) [ArgInt (hdr_rc o)];
        Printf ("Opcode:            0x%02x" ++ nl) [ArgInt (hdr_opcode o)];
        Printf ("Immediate: A       0x%02x" ++ nl) [ArgInt (hdr_a o)];
        Printf ("Len:               0x%04x" ++ nl) [ArgInt (hdr_len o)];
        Printf ("Immediate: B       0x%08x" ++ nl) [ArgInt (hdr_b o)] ].

Definition emapi_prnt_list_dev (ptr : option object) : outcome (list event) :=
  obj <- deref ptr ;;
  l <- as_dev obj ;;
  o <- match l with o :: _ => Ret o | [] => Fault ReadPastEnd end ;;
  s <- c_string (dev_name o) ;;
  Ret [ Printf ("%02d - %s" ++ nl) [ArgInt (dev_id o); ArgStr s] ].

Definition emapi_prnt (ptr : option object) (type : Z) : outcome (list event) :=
  if type =? EMOB_HDR then emapi_prnt_hdr ptr
  else if type =? EMOB_LIST_DEV then emapi_prnt_list_dev ptr
  else Ret [].

(** ** testbench.c *)

(** Objects as bytes, for [memset] on a [void *]: the layout of GCC on a
    little-endian Linux target, where [struct emapi_hdr] takes 12 bytes
    ([type] in the low and [ver] in the high nibble of byte 0) and
    [struct emapi_dev] takes 127. *)
Definition hdr_mem (h : emapi_hdr) : list Z :=
  [ Z.lor (hdr_type h) (Z.shiftl (hdr_ver h) 4);
    hdr_tag h; hdr_rc h; hdr_opcode h; hdr_a h; hdr_rsvd h;
    Z.land (hdr_len h) 0xFF; Z.land (Z.shiftr (hdr_len h) 8) 0xFF;
    Z.land (hdr_b h) 0xFF; Z.land (Z.shiftr (hdr_b h) 8) 0xFF;
    Z.land (Z.shiftr (hdr_b h) 16) 0xFF; Z.land (Z.shiftr (hdr_b h) 24) 0xFF ].

Definition hdr_of_mem (m : list Z) : emapi_hdr :=
  let c (i : nat) := nth i m 0 in
  {| hdr_type := Z.land (c 0%nat) 0x0F;
     hdr_ver := Z.land (Z.shiftr (c 0%nat) 4) 0x0F;
     hdr_tag := c 1%nat; hdr_rc := c 2%nat; hdr_opcode := c 3%nat;
     hdr_a := c 4%nat; hdr_rsvd := c 5%nat;
     hdr_len := Z.lor (Z.shiftl (c 7%nat) 8) (c 6%nat);
     hdr_b := Z.lor (Z.lor (Z.lor (Z.shiftl (c 11%nat) 24) (Z.shiftl (c 10%nat) 16))
                           (Z.shiftl (c 9%nat) 8)) (c 8%nat) |}.

Definition dev_mem (d : emapi_dev) : list Z :=
  dev_id d :: dev_len d :: dev_name d.

Fixpoint devs_of_mem (n : nat) (m : list Z) : list emapi_dev :=
  match n with
  | O => []
  | S n' =>
      mk_dev (nth 0 m 0) (nth 1 m 0) (take (Z.to_nat EMLN_DEV_NAME) (drop 2 m))
      :: devs_of_mem n' (drop (Z.to_nat (EMLN_DEV_NAME + 2)) m)
  end.

(** [memset(obj, 0, n)] on an object handed over as [void *]. *)
Definition memset_obj (obj : object) (n : Z) : outcome object :=
  match obj with
  | ObjHdr h =>
      if n <=? 12
      then Ret (ObjHdr (hdr_of_mem (replicate (Z.to_nat n) 0 ++ drop (Z.to_nat n) (hdr_mem h))))
      else Fault WritePastEnd
  | ObjDev l =>
      let m := flat_map dev_mem l in
      if n <=? Z.of_nat (length m)
      then Ret (ObjDev (devs_of_mem (length l)
                          (replicate (Z.to_nat n) 0 ++ drop (Z.to_nat n) m)))
      else Fault WritePastEnd
  end.

(** [verify_object]: [malloc] is taken to succeed.  The result holds the
    returned [int], what [obj] points to after the call, and the output. *)
Definition verify_object (obj : option object) (obj_len type buf_len : Z)
    : outcome (Z * option object * list event) :=
  (* STEP 1, 2: allocate and clear the buffer *)
  let data := Some (replicate (Z.to_nat buf_len) 0) in
  (* STEP 5: print the object *)
  e1 <- emapi_prnt obj type ;;
  (* STEP 6: serialize, then print the buffer *)
  r <- emapi_serialize data obj type None ;;
  let data := snd r in
  bytes <- deref data ;;
  let e2 := [PrntBuf bytes buf_len 4 1] in
  (* STEP 7: clear the object *)
  o <- deref obj ;;
  o <- memset_obj o obj_len ;;
  (* STEP 8: deserialize the buffer into the object *)
  r <- emapi_deserialize (Some o) data type None ;;
  (* STEP 9: print the object *)
  e3 <- emapi_prnt (snd r) type ;;
  Ret (0, snd r, e1 ++ e2 ++ e3).

(** * Vocabulary of the statements

    None of what follows is code of the repository: these definitions name
    the byte images, the caller-side loops and the side conditions that the
    properties below talk about. *)

(** ** Wire images *)

(** The bytes [emapi_serialize] assigns for a header; offset 5 is [c5], the
    byte the buffer held. *)
Definition hdr_wire (o : emapi_hdr) (c5 : Z) : list Z :=
  [ to_u8 (Z.lor (Z.land (Z.shiftl (hdr_ver o) 4) 0xF0) (Z.land (hdr_type o) 0x0F));
    to_u8 (hdr_tag o);
    to_u8 (hdr_rc o);
    to_u8 (hdr_opcode o);
    to_u8 (hdr_a o);
    c5;
    to_u8 (Z.land (hdr_len o) 0x00FF);
    to_u8 (Z.land (Z.shiftr (hdr_len o) 8) 0x00FF);
    to_u8 (Z.land (hdr_b o) 0x00FF);
    to_u8 (Z.land (Z.shiftr (hdr_b o) 8) 0x00FF);
    to_u8 (Z.land (Z.shiftr (hdr_b o) 16) 0x00FF);
    to_u8 (Z.land (Z.shiftr (hdr_b o) 24) 0x00FF) ].


(** The bytes [emapi_serialize] lays down for one descriptor. *)
Definition dev_wire (d : emapi_dev) : list Z :=
  dev_id d :: dev_len d :: take (Z.to_nat (dev_len d)) (dev_name d).

Definition devs_wire (l : list emapi_dev) : list Z := flat_map dev_wire l.

(** The sum of [2 + len] over a list of descriptors. *)
Definition wire_size (l : list emapi_dev) : Z :=
  foldr (fun d acc => 2 + dev_len d + acc) 0 l.

(** What a descriptor says: its id, its name length and that many name
    bytes.  The bytes of [name] past [len] are not part of it. *)
Definition dev_view (d : emapi_dev) : Z * Z * list Z :=
  (dev_id d, dev_len d, take (Z.to_nat (dev_len d)) (dev_name d)).

(** ** A caller's loop

    A caller serializing a list of descriptors back to back: each call
    writes at [&buf[k]] and advances [k] by the returned count. *)
Fixpoint serialize_list_dev (l : list emapi_dev) (buf : list Z) (k : Z)
    : outcome (Z * list Z) :=
  match l with
  | [] => Ret (k, buf)
  | _ :: l' =>
      r <- emapi_serialize (Some (drop (Z.to_nat k) buf)) (Some (ObjDev l))
             EMOB_LIST_DEV None ;;
      t <- deref (snd r) ;;
      serialize_list_dev l' (take (Z.to_nat k) buf ++ t) (k + fst r)
  end.

(** ** Side conditions *)

(** A descriptor that fits its structure: fields within their widths and a
    name length within the name array. *)
Definition dev_ok (d : emapi_dev) : Prop :=
  dev_wf d /\ dev_len d <= EMLN_DEV_NAME.

(** A destination slot with the name array of [struct emapi_dev]. *)
Definition slot_ok (t : emapi_dev) : Prop :=
  length (dev_name t) = Z.to_nat EMLN_DEV_NAME.

(** A name array whose bytes from [len] on are zero, as [memset] followed by
    writing [len] bytes leaves it. *)
Definition zero_padded (d : emapi_dev) : Prop :=
  drop (Z.to_nat (dev_len d)) (dev_name d)
  = replicate (Z.to_nat EMLN_DEV_NAME - Z.to_nat (dev_len d)) 0.

Definition zero_name (t : emapi_dev) : Prop :=
  dev_name t = replicate (Z.to_nat EMLN_DEV_NAME) 0.

(** ** What the calls leave behind *)

(** The slot [t] after the decoder has read the wire image of [d] into it:
    for an empty name only [name[0]] is assigned, otherwise the first [len]
    bytes of the name. *)
Definition decoded_dev (d t : emapi_dev) : emapi_dev :=
  mk_dev (dev_id d) (dev_len d)
    (if dev_len d =? 0 then <[0%nat := 0]> (dev_name t)
     else take (Z.to_nat (dev_len d)) (dev_name d)
          ++ drop (Z.to_nat (dev_len d)) (dev_name t)).

Fixpoint decoded_devs (ds todo : list emapi_dev) : list emapi_dev :=
  match ds, todo with
  | d :: ds', t :: todo' => decoded_dev d t :: decoded_devs ds' todo'
  | _, _ => todo
  end.

(** The header a builder leaves: everything zero but [opcode], [a], [b]. *)
Definition built_hdr (op x y : Z) : emapi_hdr :=
  {| hdr_ver := 0; hdr_type := 0; hdr_tag := 0; hdr_rc := 0; hdr_rsvd := 0;
     hdr_len := 0; hdr_opcode := op; hdr_a := to_u8 x; hdr_b := to_u32 y |}.

(** ** Test data *)

(** The header of [verify_hdr] in testbench.c. *)
Definition test_hdr : emapi_hdr :=
  {| hdr_ver := 0; hdr_type := EMMT_RSP; hdr_tag := 0x42; hdr_rc := 0xCD;
     hdr_opcode := 0xAB; hdr_a := 0x23; hdr_rsvd := 0; hdr_len := 0x1FFF;
     hdr_b := 0x12345678 |}.

(** The descriptor of [verify_dev] in testbench.c: id 0x21, the name
    "Device name" with its terminator (12 bytes), in a zeroed structure. *)
Definition test_dev : emapi_dev :=
  mk_dev 0x21 12
    ([0x44; 0x65; 0x76; 0x69; 0x63; 0x65; 0x20; 0x6E; 0x61; 0x6D; 0x65; 0x00]
     ++ replicate 113 0).

(** [h] with its reserved byte replaced. *)
Definition with_rsvd (h : emapi_hdr) (r : Z) : emapi_hdr :=
  {| hdr_type := hdr_type h; hdr_ver := hdr_ver h; hdr_tag := hdr_tag h;
     hdr_rc := hdr_rc h; hdr_opcode := hdr_opcode h; hdr_a := hdr_a h;
     hdr_rsvd := r; hdr_len := hdr_len h; hdr_b := hdr_b h |}.

(** [verify_hdr] and [verify_dev] of testbench.c: the object each builds is
    [test_hdr], resp. [test_dev] ([len] is [strlen(name) + 1]). *)
Definition verify_hdr : outcome (Z * option object * list event) :=
  verify_object (Some (ObjHdr test_hdr)) 12 EMOB_HDR EMLN_HDR.

Definition verify_dev : outcome (Z * option object * list event) :=
  verify_object (Some (ObjDev [test_dev])) 127 EMOB_LIST_DEV (dev_len test_dev + 2).

(** * Properties *)

Local Arguments to_u4 : simpl never.
Local Arguments to_u8 : simpl never.
Local Arguments to_u16 : simpl never.
Local Arguments to_u32 : simpl never.
Local Arguments to_int : simpl never.
Local Arguments Z.land : simpl never.
Local Arguments Z.lor : simpl never.
Local Arguments Z.shiftl : simpl never.
Local Arguments Z.shiftr : simpl never.
Local Arguments memcpy : simpl never.

Create HintDb emapi.

(** ** Arithmetic of the bit operations *)

Lemma testbit_high x w i : 0 <= x < 2 ^ w -> 0 <= w <= i -> Z.testbit x i = false.
Proof.
  intros Hx Hi. rewrite <- (Z.mod_small x (2 ^ w)) by exact Hx.
  now apply Z.mod_pow2_bits_high.
Qed.

(** An [|] whose operands share no bit is a sum. *)
Lemma lor_shiftl_low hi lo n :
  0 <= n -> 0 <= lo < 2 ^ n -> Z.lor (Z.shiftl hi n) lo = hi * 2 ^ n + lo.
Proof.
  intros Hn Hlo. pose proof (Z.add_lor_land (Z.shiftl hi n) lo) as Hs.
  assert (E : Z.land (Z.shiftl hi n) lo = 0).
  { apply Z.bits_inj'. intros i Hi. rewrite Z.land_spec, Z.bits_0.
    destruct (Z.lt_ge_cases i n).
    - rewrite Z.shiftl_spec_low by lia. reflexivity.
    - rewrite (testbit_high lo n i) by lia. apply Bool.andb_false_r. }
  rewrite E in Hs. rewrite Z.shiftl_mul_pow2 in Hs |- * by lia. lia.
Qed.

Lemma low_byte x : Z.land x 0x00FF = x mod 256.
Proof. change 0x00FF with (Z.ones 8). now rewrite Z.land_ones. Qed.

Lemma low_nibble x : Z.land x 0x0F = x mod 16.
Proof. change 0x0F with (Z.ones 4). now rewrite Z.land_ones. Qed.

Lemma pack_byte0 v t :
  is_u4 v -> is_u4 t ->
  Z.lor (Z.land (Z.shiftl v 4) 0xF0) (Z.land t 0x0F) = v * 16 + t.
Proof.
  unfold is_u4. intros Hv Ht.
  rewrite low_nibble, (Z.mod_small t) by lia.
  replace (Z.land (Z.shiftl v 4) 0xF0) with (Z.shiftl v 4).
  - rewrite lor_shiftl_low by lia. lia.
  - change 0xF0 with (Z.shiftl 0x0F 4).
    rewrite <- Z.shiftl_land, low_nibble, Z.mod_small by lia. reflexivity.
Qed.

Lemma le16 b1 b0 : is_u8 b0 -> Z.lor (Z.shiftl b1 8) b0 = b1 * 256 + b0.
Proof. unfold is_u8. intros. rewrite lor_shiftl_low by lia. lia. Qed.

Lemma le32 b3 b2 b1 b0 :
  is_u8 b2 -> is_u8 b1 -> is_u8 b0 ->
  Z.lor (Z.lor (Z.lor (Z.shiftl b3 24) (Z.shiftl b2 16)) (Z.shiftl b1 8)) b0
  = b3 * 16777216 + b2 * 65536 + b1 * 256 + b0.
Proof.
  unfold is_u8. intros H2 H1 H0.
  replace (Z.shiftl b3 24) with (Z.shiftl (Z.shiftl b3 8) 16)
    by (rewrite Z.shiftl_shiftl by lia; reflexivity).
  rewrite <- Z.shiftl_lor, (lor_shiftl_low b3 b2 8) by lia.
  replace (Z.shiftl (b3 * 2 ^ 8 + b2) 16) with (Z.shiftl (Z.shiftl (b3 * 2 ^ 8 + b2) 8) 8)
    by (rewrite Z.shiftl_shiftl by lia; reflexivity).
  rewrite <- Z.shiftl_lor, (lor_shiftl_low _ b1 8) by lia.
  rewrite lor_shiftl_low by lia. lia.
Qed.

Lemma to_u8_id x : is_u8 x -> to_u8 x = x.
Proof. unfold is_u8, to_u8. intros. now apply Z.mod_small. Qed.

Lemma to_u8_range x : is_u8 (to_u8 x).
Proof. unfold is_u8, to_u8. apply Z.mod_pos_bound. lia. Qed.

Lemma to_u32_id x : is_u32 x -> to_u32 x = x.
Proof. unfold is_u32, to_u32. intros. now apply Z.mod_small. Qed.

Lemma to_int_id x : -2147483648 <= x < 2147483648 -> to_int x = x.
Proof.
  unfold to_int. change (2 ^ 31) with 2147483648. change (2 ^ 32) with 4294967296.
  intros. rewrite Z.mod_small; lia.
Qed.

(** The powers of two of the field widths, as numerals for [lia]. *)
Ltac widths :=
  unfold to_u4, to_u8, to_u16, to_u32, is_u4, is_u8, is_u16, is_u32 in *;
  change (2 ^ 4) with 16 in *; change (2 ^ 8) with 256 in *;
  change (2 ^ 16) with 65536 in *; change (2 ^ 24) with 16777216 in *;
  change (2 ^ 32) with 4294967296 in *.

(** Decoding the bytes of a field gives the field back. *)
Lemma unpack_ver v t :
  is_u4 v -> is_u4 t ->
  to_u4 (Z.land (Z.shiftr (to_u8 (Z.lor (Z.land (Z.shiftl v 4) 0xF0) (Z.land t 0x0F))) 4)
                0x0F) = v.
Proof.
  intros Hv Ht. rewrite pack_byte0, low_nibble, Z.shiftr_div_pow2 by (assumption || lia).
  widths. Z.div_mod_to_equations. lia.
Qed.

Lemma unpack_type v t :
  is_u4 v -> is_u4 t ->
  to_u4 (Z.land (to_u8 (Z.lor (Z.land (Z.shiftl v 4) 0xF0) (Z.land t 0x0F))) 0x0F) = t.
Proof.
  intros Hv Ht. rewrite pack_byte0, low_nibble by assumption.
  widths. Z.div_mod_to_equations. lia.
Qed.

Lemma unpack_len x :
  is_u16 x ->
  to_u16 (Z.lor (Z.shiftl (to_u8 (Z.land (Z.shiftr x 8) 0x00FF)) 8)
                (to_u8 (Z.land x 0x00FF))) = x.
Proof.
  intros Hx. rewrite le16 by apply to_u8_range.
  rewrite !low_byte, Z.shiftr_div_pow2 by lia.
  widths. Z.div_mod_to_equations. lia.
Qed.

Lemma unpack_b x :
  is_u32 x ->
  to_u32 (Z.lor (Z.lor (Z.lor
            (Z.shiftl (to_u8 (Z.land (Z.shiftr x 24) 0x00FF)) 24)
            (Z.shiftl (to_u8 (Z.land (Z.shiftr x 16) 0x00FF)) 16))
            (Z.shiftl (to_u8 (Z.land (Z.shiftr x 8) 0x00FF)) 8))
            (to_u8 (Z.land x 0x00FF))) = x.
Proof.
  intros Hx. rewrite le32 by apply to_u8_range.
  rewrite !low_byte, !Z.shiftr_div_pow2 by lia.
  widths. Z.div_mod_to_equations. lia.
Qed.

(** ** The header codec *)

(** A buffer of at least twelve bytes, taken apart. *)
Lemma twelve_cells (buf : list Z) :
  (12 <= length buf)%nat ->
  exists c0 c1 c2 c3 c4 c5 c6 c7 c8 c9 c10 c11 tl,
    buf = c0 :: c1 :: c2 :: c3 :: c4 :: c5 :: c6 :: c7 :: c8 :: c9 :: c10 :: c11 :: tl.
Proof.
  intros H.
  do 12 (destruct buf as [|? buf]; [simpl in H; lia|]).
  repeat eexists.
Qed.

(** The eleven assignments of the header case, as one image. *)
Lemma serialize_hdr_cells (o : emapi_hdr) (buf : list Z) :
  (12 <= length buf)%nat ->
  exists c5, buf !! 5%nat = Some c5 /\
    emapi_serialize (Some buf) (Some (ObjHdr o)) EMOB_HDR None
    = Ret (12, Some (hdr_wire o c5 ++ drop 12 buf)).
Proof.
  intros H. destruct (twelve_cells buf H) as (c0&c1&c2&c3&c4&c5&c6&c7&c8&c9&c10&c11&tl&->).
  exists c5. split; reflexivity.
Qed.

Lemma test_hdr_wf : hdr_wf test_hdr.
Proof. split; unfold test_hdr, EMMT_RSP; widths; simpl; lia. Qed.

#[local] Hint Resolve test_hdr_wf : emapi.

(** C4: serializing the header of [verify_hdr] (ver 0, type Response, tag
    0x42, rc 0xCD, opcode 0xAB, a 0x23, len 0x1FFF, b 0x12345678) with kind
    [EMOB_HDR] into twelve zero bytes returns 12 and leaves exactly the bytes
    01 42 CD AB 23 00 FF 1F 78 56 34 12. *)
Theorem serialize_test_hdr_bytes :
  emapi_serialize (Some (replicate 12 0))
    (Some (ObjHdr {| hdr_ver := 0; hdr_type := EMMT_RSP; hdr_tag := 0x42;
                     hdr_rc := 0xCD; hdr_opcode := 0xAB; hdr_a := 0x23;
                     hdr_rsvd := 0; hdr_len := 0x1FFF; hdr_b := 0x12345678 |}))
    EMOB_HDR None
  = Ret (12, Some [0x01; 0x42; 0xCD; 0xAB; 0x23; 0x00; 0xFF; 0x1F; 0x78; 0x56; 0x34; 0x12]).
Proof. vm_compute. reflexivity. Qed.

(** C1: for a header [h] within its field widths whose reserved byte is
    zero, serializing [h] with kind [EMOB_HDR] returns 12, and deserializing
    the bytes it produced with kind [EMOB_HDR] into a zeroed header returns 12
    and yields [h]. *)
Theorem hdr_roundtrip (h : emapi_hdr) (buf : list Z) :
  hdr_wf h -> hdr_rsvd h = 0 -> (12 <= length buf)%nat ->
  exists out,
    emapi_serialize (Some buf) (Some (ObjHdr h)) EMOB_HDR None = Ret (12, Some out) /\
    emapi_deserialize (Some (ObjHdr hdr_zero)) (Some out) EMOB_HDR None
    = Ret (12, Some (ObjHdr h)).
Proof.
  intros Hwf Hr Hlen.
  destruct (serialize_hdr_cells h buf Hlen) as (c5 & _ & Hs).
  eexists. split; [exact Hs|].
  destruct Hwf. destruct h as [ty ve tg rc op a rs ln b]. simpl in *. subst rs.
  unfold emapi_deserialize. simpl.
  rewrite unpack_ver, unpack_type, unpack_len, unpack_b by assumption.
  rewrite !to_u8_id by assumption.
  reflexivity.
Qed.

Lemma hdr_roundtrip_witness :
  exists out,
    emapi_serialize (Some (replicate 12 0xEE)) (Some (ObjHdr test_hdr)) EMOB_HDR None
    = Ret (12, Some out) /\
    emapi_deserialize (Some (ObjHdr hdr_zero)) (Some out) EMOB_HDR None
    = Ret (12, Some (ObjHdr test_hdr)).
Proof.
  apply (hdr_roundtrip test_hdr (replicate 12 0xEE)).
  - auto with emapi.
  - reflexivity.
  - simpl. lia.
Defined.

(** C10: header serialization never assigns offset 5.  For every header and
    every buffer of at least twelve bytes the call returns 12; the byte at
    offset 5 is the one the buffer held before; offsets 0-4 and 6-11 hold the
    packed fields; the bytes from offset 12 on are untouched; and the first
    twelve bytes are the full wire image (reserved byte zero) exactly when the
    buffer's byte 5 was zero beforehand. *)
Theorem serialize_hdr_skips_rsvd (o : emapi_hdr) (buf : list Z) :
  (12 <= length buf)%nat ->
  exists out,
    emapi_serialize (Some buf) (Some (ObjHdr o)) EMOB_HDR None = Ret (12, Some out) /\
    out !! 5%nat = buf !! 5%nat /\
    (forall i : nat, (i < 12)%nat -> i <> 5%nat -> out !! i = hdr_wire o 0 !! i) /\
    (forall i : nat, (12 <= i)%nat -> out !! i = buf !! i) /\
    length out = length buf /\
    (take 12 out = hdr_wire o 0 <-> buf !! 5%nat = Some 0).
Proof.
  intros Hlen.
  destruct (serialize_hdr_cells o buf Hlen) as (c5 & H5 & Hs).
  eexists. split; [exact Hs|].
  assert (L : length (hdr_wire o c5) = 12%nat) by reflexivity.
  repeat split.
  - rewrite H5. reflexivity.
  - intros i Hi Hne. rewrite lookup_app_l by lia.
    do 12 (destruct i as [|i]; [first [reflexivity | congruence]|]). lia.
  - intros i Hi. rewrite lookup_app_r by lia. rewrite lookup_drop, L. f_equal. lia.
  - rewrite length_app, length_drop, L. lia.
  - rewrite take_app_length' by exact L. intros E. rewrite H5.
    unfold hdr_wire in E. injection E as ->. reflexivity.
  - rewrite take_app_length' by exact L. rewrite H5. intros E.
    injection E as ->. reflexivity.
Qed.

Lemma serialize_hdr_skips_rsvd_witness :
  exists out,
    emapi_serialize (Some (replicate 12 0xEE)) (Some (ObjHdr test_hdr)) EMOB_HDR None
    = Ret (12, Some out) /\
    out !! 5%nat = replicate 12 0xEE !! 5%nat /\
    (forall i : nat, (i < 12)%nat -> i <> 5%nat -> out !! i = hdr_wire test_hdr 0 !! i) /\
    (forall i : nat, (12 <= i)%nat -> out !! i = replicate 12 0xEE !! i) /\
    length out = length (replicate 12 0xEE) /\
    (take 12 out = hdr_wire test_hdr 0 <-> replicate 12 0xEE !! 5%nat = Some 0).
Proof.
  apply (serialize_hdr_skips_rsvd test_hdr (replicate 12 0xEE)). simpl. lia.
Defined.

(** ** The device-list codec *)

(** *** Cursors into a buffer *)

Lemma load_at (src : list Z) (k : nat) (x : Z) (r : list Z) :
  drop k src = x :: r -> load src k = Ret x.
Proof.
  intros H. unfold load.
  replace (src !! k) with (drop k src !! 0%nat)
    by (rewrite lookup_drop; f_equal; lia).
  rewrite H. reflexivity.
Qed.

Lemma drop_past (src pre rest : list Z) (k : nat) :
  drop k src = pre ++ rest -> drop (k + length pre) src = rest.
Proof.
  intros H. rewrite <- drop_drop, H. apply drop_app_length.
Qed.

Lemma insert_at_cursor {A : Type} (done todo : list A) (t x : A) :
  <[length done := x]> (done ++ t :: todo) = (done ++ [x]) ++ todo.
Proof.
  rewrite insert_app_r_alt by lia. rewrite Nat.sub_diag. simpl.
  rewrite <- app_assoc. reflexivity.
Qed.

(** *** Sizes *)

Lemma dev_ok_len (d : emapi_dev) : dev_ok d -> 0 <= dev_len d <= 125.
Proof. intros [[_ [H _] _] H']. unfold EMLN_DEV_NAME in H'. lia. Qed.

Lemma dev_wire_name_length (d : emapi_dev) :
  dev_ok d -> length (take (Z.to_nat (dev_len d)) (dev_name d)) = Z.to_nat (dev_len d).
Proof.
  intros H. pose proof (dev_ok_len d H). destruct H as [[_ _ Hn] _].
  rewrite length_take, Hn. unfold EMLN_DEV_NAME. lia.
Qed.

Lemma dev_wire_length (d : emapi_dev) :
  dev_ok d -> length (dev_wire d) = Z.to_nat (2 + dev_len d).
Proof.
  intros H. pose proof (dev_ok_len d H). unfold dev_wire. simpl.
  rewrite dev_wire_name_length by assumption. lia.
Qed.

Lemma wire_size_nonneg (ds : list emapi_dev) :
  Forall dev_ok ds -> 0 <= wire_size ds.
Proof.
  induction 1 as [|d ds Hd _ IH]; simpl; [lia|].
  pose proof (dev_ok_len d Hd). lia.
Qed.

Lemma wire_size_bound (ds : list emapi_dev) :
  Forall dev_ok ds -> wire_size ds <= 127 * Z.of_nat (length ds).
Proof.
  induction 1 as [|d ds Hd _ IH]; [simpl; lia|].
  pose proof (dev_ok_len d Hd).
  change (wire_size (d :: ds)) with (2 + dev_len d + wire_size ds).
  rewrite length_cons. lia.
Qed.

Lemma devs_wire_length (ds : list emapi_dev) :
  Forall dev_ok ds -> length (devs_wire ds) = Z.to_nat (wire_size ds).
Proof.
  induction 1 as [|d ds Hd Hds IH]; [reflexivity|].
  pose proof (dev_ok_len d Hd). pose proof (wire_size_nonneg ds Hds).
  change (devs_wire (d :: ds)) with (dev_wire d ++ devs_wire ds).
  change (wire_size (d :: ds)) with (2 + dev_len d + wire_size ds).
  rewrite length_app, IH, dev_wire_length by assumption. lia.
Qed.

(** *** One iteration of the decoding loop *)

Section Iteration.

Variables (n : nat) (src : list Z) (k : Z) (o : nat) (dst : list emapi_dev).
Variables (id ln : Z) (rest : list Z) (t : emapi_dev).

(** The cursor stands before the two-byte head [id; ln] of a descriptor and
    does not wrap; the pointer [o] designates the slot [t]. *)
Hypothesis cursor_lo : 0 <= k.
Hypothesis cursor_hi : k + 2 < 2 ^ 32.
Hypothesis at_cursor : drop (Z.to_nat k) src = id :: ln :: rest.
Hypothesis at_slot : dst !! o = Some t.

(** The iteration up to the copy of the name. *)
Lemma list_dev_iter :
  deserialize_list_dev (S n) src k o dst
  = (name <- (if ln =? 0 then store (dev_name t) 0 0
              else memcpy (dev_name t) rest (Z.to_nat ln)) ;;
     deserialize_list_dev n src (to_u32 (k + 2 + ln)) (S o)
       (<[o := mk_dev id ln name]> dst)).
Proof.
  assert (U1 : to_u32 (k + 1) = k + 1) by (apply to_u32_id; unfold is_u32; lia).
  assert (U2 : to_u32 (k + 1 + 1) = k + 2)
    by (rewrite to_u32_id by (unfold is_u32; lia); lia).
  assert (D1 : drop (Z.to_nat (k + 1)) src = ln :: rest).
  { replace (Z.to_nat (k + 1)) with (Z.to_nat k + length [id])%nat by (simpl; lia).
    apply drop_past. exact at_cursor. }
  assert (D2 : drop (Z.to_nat (k + 2)) src = rest).
  { replace (Z.to_nat (k + 2)) with (Z.to_nat k + length [id; ln])%nat by (simpl; lia).
    apply drop_past. exact at_cursor. }
  cbn [deserialize_list_dev].
  rewrite (load_at src _ _ _ at_cursor). cbn [bind]. rewrite at_slot. cbn [bind].
  rewrite U1, (load_at src _ _ _ D1). cbn [bind]. rewrite U2, D2.
  reflexivity.
Qed.

(** The declared name length exceeds the bytes left in the buffer. *)
Lemma list_dev_truncated :
  Z.of_nat (length rest) < ln ->
  deserialize_list_dev (S n) src k o dst = Fault ReadPastEnd.
Proof.
  intros Hln. rewrite list_dev_iter.
  destruct (Z.eqb_spec ln 0) as [E|E]; [lia|].
  unfold memcpy.
  destruct (Nat.leb_spec (Z.to_nat ln) (length rest)); [lia|].
  reflexivity.
Qed.

(** The declared name length exceeds the name array, the name bytes being
    all present in the buffer. *)
Lemma list_dev_oversize :
  EMLN_DEV_NAME < ln -> ln <= Z.of_nat (length rest) -> slot_ok t ->
  deserialize_list_dev (S n) src k o dst = Fault WritePastEnd.
Proof.
  unfold slot_ok. intros Hbig Hln Ht. rewrite list_dev_iter.
  unfold EMLN_DEV_NAME in *.
  destruct (Z.eqb_spec ln 0) as [E|E]; [lia|].
  unfold memcpy. rewrite Ht.
  destruct (Nat.leb_spec (Z.to_nat ln) (length rest)); [|lia].
  destruct (Nat.leb_spec (Z.to_nat ln) (Z.to_nat 125)); [lia|].
  reflexivity.
Qed.

End Iteration.

(** An iteration over the complete wire image of a descriptor that fits. *)
Lemma list_dev_step (n : nat) (src : list Z) (k : Z) (o : nat)
    (dst : list emapi_dev) (d t : emapi_dev) (rest : list Z) :
  0 <= k -> k + 2 + dev_len d < 2 ^ 32 ->
  drop (Z.to_nat k) src = dev_wire d ++ rest ->
  dst !! o = Some t -> dev_ok d -> slot_ok t ->
  deserialize_list_dev (S n) src k o dst
  = deserialize_list_dev n src (k + 2 + dev_len d) (S o) (<[o := decoded_dev d t]> dst).
Proof.
  intros Hk Hmax Hsrc Ho Hd Ht.
  pose proof (dev_ok_len d Hd) as Hl.
  pose proof (dev_wire_name_length d Hd) as Hnl.
  rewrite (list_dev_iter n src k o dst (dev_id d) (dev_len d)
             (take (Z.to_nat (dev_len d)) (dev_name d) ++ rest) t);
    [| lia | lia | exact Hsrc | exact Ho].
  rewrite (to_u32_id (k + 2 + dev_len d)) by (unfold is_u32; lia).
  unfold decoded_dev. destruct (Z.eqb_spec (dev_len d) 0) as [E|E].
  - unfold store. red in Ht. rewrite Ht. simpl. reflexivity.
  - unfold memcpy. red in Ht.
    rewrite length_app, Hnl, Ht.
    destruct (Nat.leb_spec (Z.to_nat (dev_len d)) (Z.to_nat (dev_len d) + length rest)); [|lia].
    destruct (Nat.leb_spec (Z.to_nat (dev_len d)) (Z.to_nat EMLN_DEV_NAME));
      [|unfold EMLN_DEV_NAME in *; lia].
    cbn [bind]. rewrite take_app_length' by (symmetry; exact Hnl). reflexivity.
Qed.

(** *** The loop over a sequence of descriptors *)

(** [length ds] iterations over the wire image of [ds] consume the image and
    fill that many slots; [done] are the slots before the pointer [o]. *)
Lemma list_dev_prefix (ds : list emapi_dev) :
  forall (m : nat) (src : list Z) (k : Z) (done todo : list emapi_dev) (rest : list Z),
    0 <= k -> k + wire_size ds < 2 ^ 32 ->
    drop (Z.to_nat k) src = devs_wire ds ++ rest ->
    Forall dev_ok ds -> (length ds <= length todo)%nat -> Forall slot_ok todo ->
    deserialize_list_dev (length ds + m) src k (length done) (done ++ todo)
    = deserialize_list_dev m src (k + wire_size ds) (length done + length ds)
        (done ++ decoded_devs ds todo).
Proof.
  induction ds as [|d ds IH]; intros m src k done todo rest Hk Hmax Hsrc Hds Hlen Htodo.
  - simpl. rewrite Z.add_0_r, Nat.add_0_r. destruct todo; reflexivity.
  - destruct todo as [|t todo]; [simpl in Hlen; lia|].
    apply Forall_cons in Hds as [Hd Hds]. apply Forall_cons in Htodo as [Ht Htodo].
    pose proof (dev_ok_len d Hd) as Hl. pose proof (wire_size_nonneg ds Hds) as Hw.
    change (wire_size (d :: ds)) with (2 + dev_len d + wire_size ds) in *.
    change (devs_wire (d :: ds)) with (dev_wire d ++ devs_wire ds) in Hsrc.
    rewrite <- app_assoc in Hsrc.
    change (length (d :: ds) + m)%nat with (S (length ds + m)).
    rewrite (list_dev_step _ src k (length done) _ d t (devs_wire ds ++ rest));
      [| lia | lia | exact Hsrc | apply list_lookup_middle; reflexivity | exact Hd | exact Ht].
    rewrite insert_at_cursor.
    replace (S (length done)) with (length (done ++ [decoded_dev d t]))
      by (rewrite length_app; simpl; lia).
    rewrite (IH m src (k + 2 + dev_len d) (done ++ [decoded_dev d t]) todo rest);
      [| lia | lia | | exact Hds | simpl in Hlen; lia | exact Htodo].
    + rewrite length_app. simpl. rewrite <- app_assoc. simpl.
      f_equal; lia.
    + replace (Z.to_nat (k + 2 + dev_len d))
        with (Z.to_nat k + length (dev_wire d))%nat
        by (rewrite dev_wire_length by exact Hd; lia).
      apply drop_past. exact Hsrc.
Qed.

(** *** What the filled slots hold *)

Lemma decoded_dev_view (d t : emapi_dev) :
  dev_ok d -> dev_view (decoded_dev d t) = dev_view d.
Proof.
  intros Hd. pose proof (dev_wire_name_length d Hd) as Hnl.
  unfold dev_view, decoded_dev. cbn [dev_id dev_len dev_name]. f_equal.
  destruct (Z.eqb_spec (dev_len d) 0) as [E|E].
  - rewrite E. reflexivity.
  - apply take_app_length'. symmetry. exact Hnl.
Qed.

Lemma decoded_devs_view (ds : list emapi_dev) :
  forall todo : list emapi_dev,
    Forall dev_ok ds -> (length ds <= length todo)%nat ->
    dev_view <$> take (length ds) (decoded_devs ds todo) = dev_view <$> ds.
Proof.
  induction ds as [|d ds IH]; intros todo Hds Hlen; [reflexivity|].
  destruct todo as [|t todo]; [simpl in Hlen; lia|].
  apply Forall_cons in Hds as [Hd Hds]. simpl.
  rewrite decoded_dev_view by exact Hd.
  f_equal. apply IH; [exact Hds | simpl in Hlen; lia].
Qed.

(** Slots past the decoded ones are not written. *)
Lemma decoded_devs_rest (ds : list emapi_dev) :
  forall todo : list emapi_dev,
    drop (length ds) (decoded_devs ds todo) = drop (length ds) todo.
Proof.
  induction ds as [|d ds IH]; intros [|t todo]; simpl; try reflexivity.
  apply IH.
Qed.

Lemma decoded_devs_next (ds todo : list emapi_dev) :
  (length ds < length todo)%nat -> Forall slot_ok todo ->
  exists t, decoded_devs ds todo !! length ds = Some t /\ slot_ok t.
Proof.
  intros Hlen Hok.
  destruct (lookup_lt_is_Some_2 todo (length ds) Hlen) as [t Ht].
  exists t. split.
  - rewrite <- Ht.
    rewrite <- (Nat.add_0_r (length ds)), <- !lookup_drop, decoded_devs_rest.
    reflexivity.
  - rewrite Forall_lookup in Hok. exact (Hok _ _ Ht).
Qed.

(** With zero-filled slots and zero-padded originals the structures agree
    byte for byte. *)
Lemma decoded_dev_exact (d t : emapi_dev) :
  dev_ok d -> zero_padded d -> zero_name t -> decoded_dev d t = d.
Proof.
  intros Hd Hp Ht. pose proof (dev_ok_len d Hd) as Hl.
  unfold decoded_dev, zero_padded, zero_name in *.
  destruct d as [i n nm]. cbn [dev_id dev_len dev_name] in *. f_equal.
  rewrite Ht. destruct (Z.eqb_spec n 0) as [E|E].
  - subst n. change (drop (Z.to_nat 0) nm) with nm in Hp. subst nm. reflexivity.
  - rewrite <- (take_drop (Z.to_nat n) nm) at 2. f_equal.
    rewrite Hp, drop_replicate. reflexivity.
Qed.

Lemma decoded_devs_exact (ds : list emapi_dev) :
  forall todo : list emapi_dev,
    Forall dev_ok ds -> Forall zero_padded ds -> (length ds <= length todo)%nat ->
    Forall zero_name (take (length ds) todo) ->
    take (length ds) (decoded_devs ds todo) = ds.
Proof.
  induction ds as [|d ds IH]; intros todo Hds Hp Hlen Hz; [reflexivity|].
  destruct todo as [|t todo]; [simpl in Hlen; lia|].
  apply Forall_cons in Hds as [Hd Hds]. apply Forall_cons in Hp as [Hpd Hp].
  simpl in Hz. apply Forall_cons in Hz as [Ht Hz]. simpl.
  rewrite decoded_dev_exact by assumption.
  f_equal. apply IH; [assumption | assumption | simpl in Hlen; lia | assumption].
Qed.

(** *** The calls *)

(** Entering the [EMOB_LIST_DEV] case of [emapi_deserialize]. *)
Ltac enter_list_dev :=
  unfold emapi_deserialize;
  cbn [Z.leb Z.eqb EMOB_MAX EMOB_LIST_DEV EMOB_NULL EMOB_HDR
       Z.compare Pos.compare Pos.compare_cont Pos.eqb as_dev bind deref].

(** Decoding the wire image of [ds], followed by anything, with a count of
    [length ds]. *)
Lemma deserialize_wire (ds dst : list emapi_dev) (rest : list Z) :
  Forall dev_ok ds -> (length ds <= length dst)%nat -> Forall slot_ok dst ->
  wire_size ds < 2 ^ 31 ->
  emapi_deserialize (Some (ObjDev dst)) (Some (devs_wire ds ++ rest)) EMOB_LIST_DEV
    (Some (Z.of_nat (length ds)))
  = Ret (wire_size ds, Some (ObjDev (decoded_devs ds dst))).
Proof.
  intros Hds Hlen Hdst Hsz. pose proof (wire_size_nonneg ds Hds) as Hw.
  change (2 ^ 31) with 2147483648 in Hsz.
  enter_list_dev. cbn [count_hint]. rewrite Nat2Z.id.
  pose proof (list_dev_prefix ds 0 (devs_wire ds ++ rest) 0 [] dst rest) as P.
  rewrite Nat.add_0_r in P. cbn [length app] in P. rewrite P; clear P;
    [| lia | change (2 ^ 32) with 4294967296; lia | reflexivity | assumption ..].
  cbn [deserialize_list_dev bind fst snd]. rewrite to_int_id by lia.
  reflexivity.
Qed.

(** The call over the wire image of [ds] followed by one more descriptor
    head [id; ln], with a count that reaches it: the prefix is decoded, and
    a fault of the iteration at [id; ln] is the outcome of the call. *)
Lemma deserialize_after_prefix (ds dst : list emapi_dev) (id ln : Z) (rest : list Z)
    (param : option Z) (f : fault) :
  Forall dev_ok ds -> Z.of_nat (length ds) < count_hint param ->
  (length ds < length dst)%nat -> Forall slot_ok dst ->
  wire_size ds + 2 < 2 ^ 32 ->
  (forall n t, decoded_devs ds dst !! length ds = Some t -> slot_ok t ->
     deserialize_list_dev (S n) (devs_wire ds ++ id :: ln :: rest) (wire_size ds)
       (length ds) (decoded_devs ds dst) = Fault f) ->
  emapi_deserialize (Some (ObjDev dst)) (Some (devs_wire ds ++ id :: ln :: rest))
    EMOB_LIST_DEV param = Fault f.
Proof.
  intros Hds Hnum Hlen Hdst Hsz Hstep.
  pose proof (wire_size_nonneg ds Hds) as Hw.
  destruct (decoded_devs_next ds dst Hlen Hdst) as (t & Ht & Hok).
  enter_list_dev.
  replace (Z.to_nat (count_hint param))
    with (length ds + S (Z.to_nat (count_hint param) - S (length ds)))%nat by lia.
  pose proof (list_dev_prefix ds (S (Z.to_nat (count_hint param) - S (length ds)))
                (devs_wire ds ++ id :: ln :: rest) 0 [] dst (id :: ln :: rest)) as P.
  cbn [length app] in P. rewrite P; clear P;
    [| lia | lia | reflexivity | assumption | lia | assumption].
  cbn [Nat.add Z.add]. rewrite (Hstep _ t Ht Hok). reflexivity.
Qed.

(** *** Serializing descriptors *)

(** One call of [emapi_serialize] on a descriptor that fits. *)
Lemma serialize_dev_fits (d : emapi_dev) (l : list emapi_dev) (v : list Z) :
  dev_ok d -> (Z.to_nat (2 + dev_len d) <= length v)%nat ->
  emapi_serialize (Some v) (Some (ObjDev (d :: l))) EMOB_LIST_DEV None
  = Ret (2 + dev_len d, Some (dev_wire d ++ drop (Z.to_nat (2 + dev_len d)) v)).
Proof.
  intros Hd Hv. pose proof (dev_ok_len d Hd) as Hl.
  pose proof (dev_wire_name_length d Hd) as Hnl.
  assert (Hrv : to_int (dev_len d + 2) = 2 + dev_len d)
    by (rewrite to_int_id; lia).
  destruct Hd as [[Hid Hln Hname] _].
  destruct v as [|c0 [|c1 v]]; [simpl in Hv; lia ..|].
  unfold emapi_serialize. simpl. rewrite drop_0.
  unfold memcpy. rewrite Hname.
  destruct (Nat.leb_spec (Z.to_nat (dev_len d)) (Z.to_nat EMLN_DEV_NAME));
    [|unfold EMLN_DEV_NAME in *; lia].
  destruct (Nat.leb_spec (Z.to_nat (dev_len d)) (length v));
    [|simpl in Hv; lia].
  simpl. rewrite !to_u8_id by assumption.
  rewrite Hrv. unfold dev_wire.
  replace (Z.to_nat (2 + dev_len d)) with (S (S (Z.to_nat (dev_len d)))) by lia.
  reflexivity.
Qed.

(** The caller's loop lays the wire images down back to back. *)
Lemma serialize_list_dev_fits (l : list emapi_dev) :
  forall (buf : list Z) (k : Z),
    Forall dev_ok l -> 0 <= k ->
    (Z.to_nat (k + wire_size l) <= length buf)%nat ->
    serialize_list_dev l buf k
    = Ret (k + wire_size l,
           take (Z.to_nat k) buf ++ devs_wire l ++ drop (Z.to_nat (k + wire_size l)) buf).
Proof.
  induction l as [|d l IH]; intros buf k Hl Hk Hbuf.
  - simpl. rewrite Z.add_0_r, take_drop. reflexivity.
  - apply Forall_cons in Hl as [Hd Hl].
    pose proof (dev_ok_len d Hd) as Hdl. pose proof (wire_size_nonneg l Hl) as Hw.
    change (wire_size (d :: l)) with (2 + dev_len d + wire_size l) in *.
    change (devs_wire (d :: l)) with (dev_wire d ++ devs_wire l).
    cbn [serialize_list_dev].
    rewrite serialize_dev_fits by (try assumption; rewrite length_drop; lia).
    cbn [bind snd fst deref].
    assert (Ht : length (take (Z.to_nat k) buf) = Z.to_nat k)
      by (rewrite length_take; lia).
    assert (Hw' : length (dev_wire d) = Z.to_nat (2 + dev_len d))
      by (apply dev_wire_length; exact Hd).
    set (pre := take (Z.to_nat k) buf) in *.
    set (tl := drop (Z.to_nat (2 + dev_len d)) (drop (Z.to_nat k) buf)).
    assert (Hpw : length (pre ++ dev_wire d) = Z.to_nat (k + (2 + dev_len d)))
      by (rewrite length_app; lia).
    assert (E1 : take (Z.to_nat (k + (2 + dev_len d))) (pre ++ dev_wire d ++ tl)
                 = pre ++ dev_wire d)
      by (rewrite app_assoc; apply take_app_length'; symmetry; exact Hpw).
    assert (E2 : drop (Z.to_nat (k + (2 + dev_len d) + wire_size l)) (pre ++ dev_wire d ++ tl)
                 = drop (Z.to_nat (k + (2 + dev_len d + wire_size l))) buf).
    { rewrite app_assoc.
      replace (Z.to_nat (k + (2 + dev_len d) + wire_size l))
        with (length (pre ++ dev_wire d) + Z.to_nat (wire_size l))%nat by lia.
      rewrite <- drop_drop, drop_app_length. unfold tl. rewrite !drop_drop.
      f_equal. lia. }
    rewrite IH; [| exact Hl | lia |].
    + rewrite E1, E2, <- !app_assoc. do 2 f_equal. lia.
    + rewrite app_assoc, length_app, Hpw. unfold tl. rewrite !length_drop. lia.
Qed.

(** *** Test data *)

Lemma test_dev_ok : dev_ok test_dev.
Proof.
  split; [split|]; unfold is_u8, EMLN_DEV_NAME; simpl; first [lia | reflexivity].
Qed.

Lemma dev_zero_ok : dev_ok dev_zero.
Proof.
  split; [split|]; unfold is_u8, EMLN_DEV_NAME; simpl; first [lia | reflexivity].
Qed.

Lemma dev_zero_slot : slot_ok dev_zero.
Proof. reflexivity. Qed.

#[local] Hint Resolve test_dev_ok dev_zero_ok dev_zero_slot : emapi.
#[local] Hint Resolve Forall_nil_2 Forall_cons_2 Forall_replicate : emapi.

(** *** Round trip, truncation, capacity *)

(** C5: for every list [l] of at most 64 descriptors with name lengths at
    most 125, serializing the descriptors in order, each call of
    [emapi_serialize] (kind [EMOB_LIST_DEV]) writing where the previous one
    stopped, and then deserializing the buffer with kind [EMOB_LIST_DEV] and a
    count of [length l] gives the descriptors of [l] back: same id, same name
    length and the same [len] name bytes, in order.  Both directions report
    the same byte count, the sum of [2 + len].  Name bytes past [len] are not
    transmitted: the slots keep theirs, so the structures are equal as a
    whole when originals and slots are zero-filled there. *)
Theorem list_dev_roundtrip (l dst : list emapi_dev) (buf : list Z) :
  (length l <= Z.to_nat EMLN_DEV_NUM)%nat -> Forall dev_ok l ->
  (Z.to_nat (wire_size l) <= length buf)%nat ->
  (length l <= length dst)%nat -> Forall slot_ok dst ->
  exists out dst',
    serialize_list_dev l buf 0 = Ret (wire_size l, out) /\
    emapi_deserialize (Some (ObjDev dst)) (Some out) EMOB_LIST_DEV
      (Some (Z.of_nat (length l))) = Ret (wire_size l, Some (ObjDev dst')) /\
    dev_view <$> take (length l) dst' = dev_view <$> l /\
    drop (length l) dst' = drop (length l) dst /\
    (Forall zero_padded l -> Forall zero_name (take (length l) dst) ->
     take (length l) dst' = l).
Proof.
  intros Hn Hl Hbuf Hdst Hslots.
  pose proof (wire_size_bound l Hl) as Hb. unfold EMLN_DEV_NUM in Hn.
  exists (devs_wire l ++ drop (Z.to_nat (wire_size l)) buf), (decoded_devs l dst).
  split; [|split; [|split; [|split]]].
  - rewrite serialize_list_dev_fits by (assumption || lia). reflexivity.
  - apply deserialize_wire; try assumption. change (2 ^ 31) with 2147483648. lia.
  - apply decoded_devs_view; assumption.
  - apply decoded_devs_rest.
  - intros Hp Hz. apply decoded_devs_exact; assumption.
Qed.

Lemma list_dev_roundtrip_witness :
  exists out dst',
    serialize_list_dev [test_dev; dev_zero] (replicate 20 0xEE) 0
    = Ret (wire_size [test_dev; dev_zero], out) /\
    emapi_deserialize (Some (ObjDev (replicate 3 dev_zero))) (Some out) EMOB_LIST_DEV
      (Some (Z.of_nat (length [test_dev; dev_zero])))
    = Ret (wire_size [test_dev; dev_zero], Some (ObjDev dst')) /\
    dev_view <$> take (length [test_dev; dev_zero]) dst' = dev_view <$> [test_dev; dev_zero] /\
    drop (length [test_dev; dev_zero]) dst'
    = drop (length [test_dev; dev_zero]) (replicate 3 dev_zero) /\
    (Forall zero_padded [test_dev; dev_zero] ->
     Forall zero_name (take (length [test_dev; dev_zero]) (replicate 3 dev_zero)) ->
     take (length [test_dev; dev_zero]) dst' = [test_dev; dev_zero]).
Proof.
  apply (list_dev_roundtrip [test_dev; dev_zero] (replicate 3 dev_zero) (replicate 20 0xEE)).
  - vm_compute. lia.
  - auto with emapi.
  - vm_compute. lia.
  - vm_compute. lia.
  - auto with emapi.
Defined.

(** C3, as the code has it: truncation is not rejected.  [emapi_deserialize]
    takes no buffer length and checks no bound, so when a device-list decode
    reaches, after complete descriptors, a descriptor whose declared name
    length runs past the end of the buffer, the call returns no error: the
    copy of the name reads beyond the buffer. *)
Theorem deserialize_truncated_reads_past_end (ds dst : list emapi_dev) (id ln : Z)
    (rest : list Z) (param : option Z) :
  Forall dev_ok ds -> Z.of_nat (length rest) < ln ->
  Z.of_nat (length ds) < count_hint param ->
  (length ds < length dst)%nat -> Forall slot_ok dst ->
  wire_size ds + 2 < 2 ^ 32 ->
  emapi_deserialize (Some (ObjDev dst)) (Some (devs_wire ds ++ id :: ln :: rest))
    EMOB_LIST_DEV param = Fault ReadPastEnd.
Proof.
  intros Hds Hln Hnum Hlen Hdst Hsz.
  pose proof (wire_size_nonneg ds Hds) as Hw.
  apply deserialize_after_prefix; try assumption.
  intros n t Ht _.
  apply (list_dev_truncated n _ _ _ _ id ln rest t); try assumption; try lia.
  apply drop_app_length'. symmetry. apply devs_wire_length. exact Hds.
Qed.

Lemma deserialize_truncated_reads_past_end_witness :
  emapi_deserialize (Some (ObjDev (replicate 2 dev_zero)))
    (Some (devs_wire [test_dev] ++ 0x22 :: 5 :: [0x41; 0x42])) EMOB_LIST_DEV (Some 2)
  = Fault ReadPastEnd.
Proof.
  apply (deserialize_truncated_reads_past_end [test_dev] (replicate 2 dev_zero)
           0x22 5 [0x41; 0x42] (Some 2)).
  - auto with emapi.
  - simpl. lia.
  - simpl. lia.
  - simpl. lia.
  - auto with emapi.
  - simpl. lia.
Defined.

(** C3 at a concrete input: a four-byte buffer declaring a five-byte name.
    The call does not return -1; it reads past the end of the buffer. *)
Lemma deserialize_truncated_counterexample :
  emapi_deserialize (Some (ObjDev [dev_zero])) (Some [0x21; 5; 0x41; 0x42])
    EMOB_LIST_DEV None = Fault ReadPastEnd
  /\ ~ (exists dst', emapi_deserialize (Some (ObjDev [dev_zero])) (Some [0x21; 5; 0x41; 0x42])
          EMOB_LIST_DEV None = Ret (-1, dst')).
Proof.
  assert (E : emapi_deserialize (Some (ObjDev [dev_zero])) (Some [0x21; 5; 0x41; 0x42])
                EMOB_LIST_DEV None = Fault ReadPastEnd) by (vm_compute; reflexivity).
  split; [exact E|]. intros [dst' H]. rewrite E in H. discriminate H.
Qed.

(** C6, as the code has it: [emapi_deserialize] has no capacity check.  A
    declared name length above 125 is not rejected: after complete
    descriptors, the copy of such a name runs past the 125-byte name array
    and no error is returned.  A count above 64 is not rejected either: any
    number of descriptors is decoded, one per slot of the caller's array,
    and the call returns the bytes consumed. *)
Theorem deserialize_no_capacity_check :
  (forall (ds dst : list emapi_dev) (id ln : Z) (rest : list Z) (param : option Z),
     Forall dev_ok ds -> EMLN_DEV_NAME < ln -> ln <= Z.of_nat (length rest) ->
     Z.of_nat (length ds) < count_hint param ->
     (length ds < length dst)%nat -> Forall slot_ok dst ->
     wire_size ds + 2 < 2 ^ 32 ->
     emapi_deserialize (Some (ObjDev dst)) (Some (devs_wire ds ++ id :: ln :: rest))
       EMOB_LIST_DEV param = Fault WritePastEnd)
  /\
  (forall (ds dst : list emapi_dev) (rest : list Z),
     Forall dev_ok ds -> (length ds <= length dst)%nat -> Forall slot_ok dst ->
     wire_size ds < 2 ^ 31 ->
     emapi_deserialize (Some (ObjDev dst)) (Some (devs_wire ds ++ rest)) EMOB_LIST_DEV
       (Some (Z.of_nat (length ds)))
     = Ret (wire_size ds, Some (ObjDev (decoded_devs ds dst)))).
Proof.
  split.
  - intros ds dst id ln rest param Hds Hbig Hln Hnum Hlen Hdst Hsz.
    pose proof (wire_size_nonneg ds Hds) as Hw.
    apply deserialize_after_prefix; try assumption.
    intros n t Ht Hok.
    apply (list_dev_oversize n _ _ _ _ id ln rest t); try assumption; try lia.
    apply drop_app_length'. symmetry. apply devs_wire_length. exact Hds.
  - intros ds dst rest. apply deserialize_wire.
Qed.

Lemma deserialize_no_capacity_check_witness :
  emapi_deserialize (Some (ObjDev (replicate 2 dev_zero)))
    (Some (devs_wire [test_dev] ++ 0x22 :: 126 :: replicate 126 0x41)) EMOB_LIST_DEV (Some 2)
  = Fault WritePastEnd
  /\
  emapi_deserialize (Some (ObjDev (replicate 65 dev_zero)))
    (Some (devs_wire (replicate 65 test_dev) ++ [])) EMOB_LIST_DEV
    (Some (Z.of_nat (length (replicate 65 test_dev))))
  = Ret (wire_size (replicate 65 test_dev),
         Some (ObjDev (decoded_devs (replicate 65 test_dev) (replicate 65 dev_zero)))).
Proof.
  split.
  - apply (proj1 deserialize_no_capacity_check [test_dev] (replicate 2 dev_zero)
             0x22 126 (replicate 126 0x41) (Some 2)).
    + auto with emapi.
    + unfold EMLN_DEV_NAME. lia.
    + simpl. lia.
    + simpl. lia.
    + simpl. lia.
    + auto with emapi.
    + simpl. lia.
  - apply (proj2 deserialize_no_capacity_check (replicate 65 test_dev)
             (replicate 65 dev_zero) []).
    + auto with emapi.
    + rewrite !length_replicate. lia.
    + auto with emapi.
    + vm_compute. reflexivity.
Defined.

(** C6 at concrete inputs.  A descriptor declaring a 126-byte name, all of
    it present, is not answered with -1: the copy overruns the name array.
    A count of 65 over 65 two-byte descriptors (empty names) is not answered
    with -1 either: the call returns 130 with all 65 slots assigned. *)
Lemma deserialize_capacity_counterexample :
  emapi_deserialize (Some (ObjDev [dev_zero]))
    (Some (0x21 :: 126 :: replicate 126 0x41)) EMOB_LIST_DEV None
  = Fault WritePastEnd
  /\
  emapi_deserialize (Some (ObjDev (replicate 65 dev_zero)))
    (Some (replicate 130 0)) EMOB_LIST_DEV (Some 65)
  = Ret (130, Some (ObjDev (replicate 65 dev_zero))).
Proof. split; vm_compute; reflexivity. Qed.

(** ** Shape resolution *)

(** Both resolvers are total functions: every opcode value gets an object
    kind.  The response table is the documented one; the request table is
    [EMOB_NULL] everywhere except at [EMOP_LIST_DEV]. *)
Lemma emob_rsp_table (opcode : Z) :
  emapi_emob_rsp opcode = if opcode =? EMOP_LIST_DEV then EMOB_LIST_DEV else EMOB_NULL.
Proof.
  unfold emapi_emob_rsp, EMOP_EVENT, EMOP_LIST_DEV.
  destruct (Z.eqb_spec opcode 0), (Z.eqb_spec opcode 1); try lia;
    destruct (opcode =? EMOP_CONN_DEV), (opcode =? EMOP_DISCON_DEV); reflexivity.
Qed.

Lemma emob_req_table (opcode : Z) :
  opcode <> EMOP_LIST_DEV -> emapi_emob_req opcode = EMOB_NULL.
Proof.
  intros H. unfold emapi_emob_req.
  destruct (Z.eqb_spec opcode EMOP_LIST_DEV); [contradiction|].
  destruct (opcode =? EMOP_EVENT), (opcode =? EMOP_CONN_DEV),
    (opcode =? EMOP_DISCON_DEV); reflexivity.
Qed.

(** C2 at the List devices opcode: the request shape resolved for 0x01 is the
    device-list kind, not the None kind, although emapi.h documents the List
    devices request with "Payload: None". *)
Theorem emob_req_list_dev :
  emapi_emob_req 0x01 = EMOB_LIST_DEV /\ emapi_emob_req 0x01 <> EMOB_NULL.
Proof. split; [reflexivity | discriminate]. Qed.

(** ** NULL targets *)

(** The builders and the decoder test their target against NULL and report
    failure without touching anything. *)
Lemma null_target_rejected (x y type : Z) (src : option (list Z)) (param : option Z) :
  emapi_fill_conn None x y = (1, None) /\
  emapi_fill_disconn None x y = (1, None) /\
  emapi_fill_listdev None x y = (1, None) /\
  emapi_deserialize None src type param = Ret (-1, None).
Proof. repeat split. Qed.

(** C7 at [emapi_serialize]: its input validation looks at [type] only, so
    with a NULL destination and the header kind it writes [dst[0]] through the
    null pointer instead of returning an error; the same holds for the
    device-list kind. *)
Theorem serialize_null_dst_unchecked (h : emapi_hdr) (d : emapi_dev) :
  emapi_serialize None (Some (ObjHdr h)) EMOB_HDR None = Fault NullDeref /\
  emapi_serialize None (Some (ObjDev [d])) EMOB_LIST_DEV None = Fault NullDeref.
Proof. split; reflexivity. Qed.

(** ** Message builders *)

(** C8: each of [emapi_fill_conn], [emapi_fill_disconn], [emapi_fill_listdev]
    returns nonzero exactly when the message pointer is NULL.  On a message it
    returns 0 and leaves a header whose version, type, tag, return code,
    reserved byte and length are zero, whose opcode is 0x02, 0x03, 0x01
    respectively and whose [a] and [b] are the two arguments converted to
    [__u8] and [__u32]; the payload is left as it was. *)
Theorem fill_postcondition (m : option emapi_msg) (x y : Z) :
  (fst (emapi_fill_conn m x y) <> 0 <-> m = None) /\
  (fst (emapi_fill_disconn m x y) <> 0 <-> m = None) /\
  (fst (emapi_fill_listdev m x y) <> 0 <-> m = None) /\
  match m with
  | None =>
      snd (emapi_fill_conn m x y) = None /\
      snd (emapi_fill_disconn m x y) = None /\
      snd (emapi_fill_listdev m x y) = None
  | Some m0 =>
      emapi_fill_conn m x y = (0, Some (mk_msg (built_hdr 0x02 x y) (msg_dev m0))) /\
      emapi_fill_disconn m x y = (0, Some (mk_msg (built_hdr 0x03 x y) (msg_dev m0))) /\
      emapi_fill_listdev m x y = (0, Some (mk_msg (built_hdr 0x01 x y) (msg_dev m0)))
  end.
Proof.
  destruct m as [m0|]; simpl.
  - repeat split; (intros H; first [congruence | discriminate H]).
  - repeat split; (intros H; first [congruence | discriminate H | lia]).
Qed.

(** ** Name lookups *)

(** C9: each of [emmt], [emob], [emop], [emrc] returns NULL for every code at
    or above its maximum ([EMMT_MAX] = 3, [EMOB_MAX] = 3, [EMOP_MAX] = 4,
    [EMRC_MAX] = 6) and a non-empty string for every code below it.  The
    result is a function of the code alone (the tables are constants), so
    repeated calls agree. *)
Theorem name_lookup_bounds (u : Z) :
  0 <= u ->
  (EMMT_MAX <= u -> emmt u = None) /\
  (u < EMMT_MAX -> exists s, emmt u = Some s /\ s <> ""%string) /\
  (EMOB_MAX <= u -> emob u = None) /\
  (u < EMOB_MAX -> exists s, emob u = Some s /\ s <> ""%string) /\
  (EMOP_MAX <= u -> emop u = None) /\
  (u < EMOP_MAX -> exists s, emop u = Some s /\ s <> ""%string) /\
  (EMRC_MAX <= u -> emrc u = None) /\
  (u < EMRC_MAX -> exists s, emrc u = Some s /\ s <> ""%string).
Proof.
  intros Hu. unfold emmt, emob, emop, emrc, EMMT_MAX, EMOB_MAX, EMOP_MAX, EMRC_MAX.
  repeat split; intros H.
  all: try (match goal with
            | |- (if ?m <=? ?v then _ else _) = None =>
                destruct (Z.leb_spec m v); [reflexivity | lia]
            end).
  all: match goal with
       | |- exists s, (if ?m <=? ?v then _ else _) = _ /\ _ =>
           destruct (Z.leb_spec m v); [lia|]
       end.
  all: assert (Hc : u = 0 \/ u = 1 \/ u = 2 \/ u = 3 \/ u = 4 \/ u = 5) by lia.
  all: repeat (destruct Hc as [-> | Hc]); try subst u; try lia.
  all: eexists; split; [reflexivity | discriminate].
Qed.

Lemma name_lookup_bounds_witness :
  (EMMT_MAX <= 2 -> emmt 2 = None) /\
  (2 < EMMT_MAX -> exists s, emmt 2 = Some s /\ s <> ""%string) /\
  (EMOB_MAX <= 2 -> emob 2 = None) /\
  (2 < EMOB_MAX -> exists s, emob 2 = Some s /\ s <> ""%string) /\
  (EMOP_MAX <= 2 -> emop 2 = None) /\
  (2 < EMOP_MAX -> exists s, emop 2 = Some s /\ s <> ""%string) /\
  (EMRC_MAX <= 2 -> emrc 2 = None) /\
  (2 < EMRC_MAX -> exists s, emrc 2 = Some s /\ s <> ""%string).
Proof. apply (name_lookup_bounds 2). lia. Defined.

(** * Further properties of the code *)

(** ** The header codec, both ways *)

(** Decoding the image of a header: every field but [rsvd] comes from the
    image. *)
Lemma deserialize_hdr_wire (h o : emapi_hdr) (c5 : Z) (tl : list Z) (param : option Z) :
  hdr_wf h ->
  emapi_deserialize (Some (ObjHdr o)) (Some (hdr_wire h c5 ++ tl)) EMOB_HDR param
  = Ret (12, Some (ObjHdr (with_rsvd h (hdr_rsvd o)))).
Proof.
  intros Hwf. destruct Hwf. destruct h as [ty ve tg rc op a rs ln b]. simpl in *.
  unfold emapi_deserialize, with_rsvd. simpl.
  rewrite unpack_ver, unpack_type, unpack_len, unpack_b by assumption.
  rewrite !to_u8_id by assumption.
  reflexivity.
Qed.

(** X1: the reserved byte does not travel.  For every header within its
    field widths, whatever its reserved byte, and every destination header,
    serializing and then deserializing with kind [EMOB_HDR] gives every field
    of the original back except [rsvd], which keeps the value the destination
    had. *)
Theorem hdr_roundtrip_keeps_dst_rsvd (h o : emapi_hdr) (buf : list Z) :
  hdr_wf h -> (12 <= length buf)%nat ->
  exists out,
    emapi_serialize (Some buf) (Some (ObjHdr h)) EMOB_HDR None = Ret (12, Some out) /\
    emapi_deserialize (Some (ObjHdr o)) (Some out) EMOB_HDR None
    = Ret (12, Some (ObjHdr (with_rsvd h (hdr_rsvd o)))).
Proof.
  intros Hwf Hlen.
  destruct (serialize_hdr_cells h buf Hlen) as (c5 & _ & Hs).
  eexists. split; [exact Hs|]. apply deserialize_hdr_wire. exact Hwf.
Qed.

Lemma hdr_roundtrip_keeps_dst_rsvd_witness :
  exists out,
    emapi_serialize (Some (replicate 12 0xEE)) (Some (ObjHdr (with_rsvd test_hdr 0x7F)))
      EMOB_HDR None = Ret (12, Some out) /\
    emapi_deserialize (Some (ObjHdr (with_rsvd hdr_zero 0x55))) (Some out) EMOB_HDR None
    = Ret (12, Some (ObjHdr (with_rsvd (with_rsvd test_hdr 0x7F)
                               (hdr_rsvd (with_rsvd hdr_zero 0x55))))).
Proof.
  apply (hdr_roundtrip_keeps_dst_rsvd (with_rsvd test_hdr 0x7F) (with_rsvd hdr_zero 0x55)
           (replicate 12 0xEE)).
  - split; unfold with_rsvd, test_hdr, EMMT_RSP; widths; simpl; lia.
  - simpl. lia.
Defined.

(** The twelve loads of the header case, on a buffer taken apart. *)
Lemma deserialize_hdr_cells (o : emapi_hdr) (param : option Z)
    (c0 c1 c2 c3 c4 c5 c6 c7 c8 c9 c10 c11 : Z) (tl : list Z) :
  emapi_deserialize (Some (ObjHdr o))
    (Some (c0 :: c1 :: c2 :: c3 :: c4 :: c5 :: c6 :: c7 :: c8 :: c9 :: c10 :: c11 :: tl))
    EMOB_HDR param
  = Ret (12, Some (ObjHdr
      {| hdr_ver := to_u4 (Z.land (Z.shiftr c0 4) 0x0F);
         hdr_type := to_u4 (Z.land c0 0x0F);
         hdr_tag := c1; hdr_rc := c2; hdr_opcode := c3; hdr_a := c4;
         hdr_rsvd := hdr_rsvd o;
         hdr_len := to_u16 (Z.lor (Z.shiftl c7 8) c6);
         hdr_b := to_u32 (Z.lor (Z.lor (Z.lor (Z.shiftl c11 24) (Z.shiftl c10 16))
                                       (Z.shiftl c9 8)) c8) |})).
Proof. reflexivity. Qed.

(** Packing what was unpacked gives the byte back. *)
Lemma repack_byte0 c :
  is_u8 c ->
  to_u8 (Z.lor (Z.land (Z.shiftl (to_u4 (Z.land (Z.shiftr c 4) 0x0F)) 4) 0xF0)
               (Z.land (to_u4 (Z.land c 0x0F)) 0x0F)) = c.
Proof.
  intros Hc.
  assert (Hv : is_u4 (to_u4 (Z.land (Z.shiftr c 4) 0x0F)))
    by (unfold is_u4, to_u4; apply Z.mod_pos_bound; lia).
  assert (Ht : is_u4 (to_u4 (Z.land c 0x0F)))
    by (unfold is_u4, to_u4; apply Z.mod_pos_bound; lia).
  rewrite pack_byte0 by assumption.
  rewrite !low_nibble, Z.shiftr_div_pow2 by lia.
  widths. Z.div_mod_to_equations. lia.
Qed.

Lemma repack_len c7 c6 :
  is_u8 c7 -> is_u8 c6 ->
  to_u8 (Z.land (to_u16 (Z.lor (Z.shiftl c7 8) c6)) 0x00FF) = c6 /\
  to_u8 (Z.land (Z.shiftr (to_u16 (Z.lor (Z.shiftl c7 8) c6)) 8) 0x00FF) = c7.
Proof.
  intros H7 H6. rewrite le16 by assumption.
  rewrite !low_byte, Z.shiftr_div_pow2 by lia.
  widths. split; Z.div_mod_to_equations; lia.
Qed.

Lemma repack_b c11 c10 c9 c8 :
  is_u8 c11 -> is_u8 c10 -> is_u8 c9 -> is_u8 c8 ->
  let b := to_u32 (Z.lor (Z.lor (Z.lor (Z.shiftl c11 24) (Z.shiftl c10 16))
                                (Z.shiftl c9 8)) c8) in
  to_u8 (Z.land b 0x00FF) = c8 /\
  to_u8 (Z.land (Z.shiftr b 8) 0x00FF) = c9 /\
  to_u8 (Z.land (Z.shiftr b 16) 0x00FF) = c10 /\
  to_u8 (Z.land (Z.shiftr b 24) 0x00FF) = c11.
Proof.
  intros H11 H10 H9 H8 b. subst b. rewrite le32 by assumption.
  rewrite !low_byte, !Z.shiftr_div_pow2 by lia.
  widths. repeat split; Z.div_mod_to_equations; lia.
Qed.

(** The image of a header decoded from twelve bytes is those bytes, offset 5
    apart. *)
Lemma hdr_wire_of_cells (o : emapi_hdr) (x c0 c1 c2 c3 c4 c6 c7 c8 c9 c10 c11 : Z) :
  Forall is_u8 [c0; c1; c2; c3; c4; c6; c7; c8; c9; c10; c11] ->
  hdr_wire
    {| hdr_ver := to_u4 (Z.land (Z.shiftr c0 4) 0x0F);
       hdr_type := to_u4 (Z.land c0 0x0F);
       hdr_tag := c1; hdr_rc := c2; hdr_opcode := c3; hdr_a := c4;
       hdr_rsvd := hdr_rsvd o;
       hdr_len := to_u16 (Z.lor (Z.shiftl c7 8) c6);
       hdr_b := to_u32 (Z.lor (Z.lor (Z.lor (Z.shiftl c11 24) (Z.shiftl c10 16))
                                     (Z.shiftl c9 8)) c8) |} x
  = [c0; c1; c2; c3; c4; x; c6; c7; c8; c9; c10; c11].
Proof.
  intros H. repeat (apply Forall_cons in H as [? H]).
  pose proof (repack_len c7 c6) as (E6 & E7); [assumption ..|].
  pose proof (repack_b c11 c10 c9 c8) as E; cbv zeta in E.
  destruct E as (E8 & E9 & E10 & E11); [assumption ..|].
  unfold hdr_wire. cbn [hdr_ver hdr_type hdr_tag hdr_rc hdr_opcode hdr_a hdr_len hdr_b].
  rewrite repack_byte0, E6, E7, E8, E9, E10, E11 by assumption.
  rewrite !to_u8_id by assumption. reflexivity.
Qed.

(** X2: decoding then encoding a header gives the wire bytes back.  For
    every buffer of at least twelve bytes, deserializing with kind [EMOB_HDR]
    and serializing the resulting header into another buffer reproduces the
    source at offsets 0-4 and 6-11; offset 5 is the one the target buffer
    held. *)
Theorem hdr_decode_encode (src buf : list Z) (o : emapi_hdr) :
  (12 <= length src)%nat -> Forall is_u8 (take 12 src) -> (12 <= length buf)%nat ->
  exists h out,
    emapi_deserialize (Some (ObjHdr o)) (Some src) EMOB_HDR None
    = Ret (12, Some (ObjHdr h)) /\
    emapi_serialize (Some buf) (Some (ObjHdr h)) EMOB_HDR None = Ret (12, Some out) /\
    (forall i : nat, (i < 12)%nat -> i <> 5%nat -> out !! i = src !! i) /\
    out !! 5%nat = buf !! 5%nat.
Proof.
  intros Hs Hb Hlen.
  destruct (twelve_cells src Hs) as (c0&c1&c2&c3&c4&c5&c6&c7&c8&c9&c10&c11&tl&->).
  cbn [take] in Hb. repeat (apply Forall_cons in Hb as [? Hb]).
  rewrite deserialize_hdr_cells. eexists. 
  destruct (serialize_hdr_cells
              {| hdr_ver := to_u4 (Z.land (Z.shiftr c0 4) 0x0F);
                 hdr_type := to_u4 (Z.land c0 0x0F);
                 hdr_tag := c1; hdr_rc := c2; hdr_opcode := c3; hdr_a := c4;
                 hdr_rsvd := hdr_rsvd o;
                 hdr_len := to_u16 (Z.lor (Z.shiftl c7 8) c6);
                 hdr_b := to_u32 (Z.lor (Z.lor (Z.lor (Z.shiftl c11 24) (Z.shiftl c10 16))
                                               (Z.shiftl c9 8)) c8) |} buf Hlen)
    as (x & Hx & Hser).
  rewrite hdr_wire_of_cells in Hser
    by (repeat first [apply Forall_nil_2 | apply Forall_cons_2; [assumption|]]).
  eexists. split; [reflexivity|]. split; [exact Hser|]. split.
  - intros i Hi Hne.
    do 12 (destruct i as [|i]; [first [reflexivity | congruence]|]). lia.
  - rewrite Hx. reflexivity.
Qed.

Lemma hdr_decode_encode_witness :
  exists h out,
    emapi_deserialize (Some (ObjHdr hdr_zero))
      (Some [0x01; 0x42; 0xCD; 0xAB; 0x23; 0x99; 0xFF; 0x1F; 0x78; 0x56; 0x34; 0x12; 0x77])
      EMOB_HDR None
    = Ret (12, Some (ObjHdr h)) /\
    emapi_serialize (Some (replicate 12 0xEE)) (Some (ObjHdr h)) EMOB_HDR None
    = Ret (12, Some out) /\
    (forall i : nat, (i < 12)%nat -> i <> 5%nat ->
       out !! i
       = [0x01; 0x42; 0xCD; 0xAB; 0x23; 0x99; 0xFF; 0x1F; 0x78; 0x56; 0x34; 0x12; 0x77] !! i) /\
    out !! 5%nat = replicate 12 0xEE !! 5%nat.
Proof.
  apply (hdr_decode_encode
           [0x01; 0x42; 0xCD; 0xAB; 0x23; 0x99; 0xFF; 0x1F; 0x78; 0x56; 0x34; 0x12; 0x77]
           (replicate 12 0xEE) hdr_zero).
  - simpl. lia.
  - cbn [take]. repeat constructor; unfold is_u8; lia.
  - simpl. lia.
Defined.

(** X3: what header decoding yields and what it reads.  From any buffer of
    at least twelve bytes the call returns 12 and a header within its field
    widths whose [rsvd] is the destination's; the result depends on offsets
    0-4 and 6-11 only, so any other buffer that agrees there (whatever its
    byte 5 and whatever follows) decodes to the same header. *)
Theorem hdr_decode_wf (src : list Z) (o : emapi_hdr) (param : option Z) :
  (12 <= length src)%nat -> Forall is_u8 (take 12 src) -> is_u8 (hdr_rsvd o) ->
  exists h,
    emapi_deserialize (Some (ObjHdr o)) (Some src) EMOB_HDR param
    = Ret (12, Some (ObjHdr h)) /\
    hdr_wf h /\ hdr_rsvd h = hdr_rsvd o /\
    (forall src' : list Z,
       (forall i : nat, (i < 12)%nat -> i <> 5%nat -> src' !! i = src !! i) ->
       emapi_deserialize (Some (ObjHdr o)) (Some src') EMOB_HDR param
       = Ret (12, Some (ObjHdr h))).
Proof.
  intros Hs Hb Ho.
  destruct (twelve_cells src Hs) as (c0&c1&c2&c3&c4&c5&c6&c7&c8&c9&c10&c11&tl&->).
  cbn [take] in Hb. repeat (apply Forall_cons in Hb as [? Hb]).
  rewrite deserialize_hdr_cells. eexists. split; [reflexivity|].
  split; [|split; [reflexivity|]].
  - split; cbn [hdr_type hdr_ver hdr_tag hdr_rc hdr_opcode hdr_a hdr_rsvd hdr_len hdr_b];
      try assumption.
    + unfold is_u4, to_u4. apply Z.mod_pos_bound. lia.
    + unfold is_u4, to_u4. apply Z.mod_pos_bound. lia.
    + unfold is_u16, to_u16. apply Z.mod_pos_bound. lia.
    + unfold is_u32, to_u32. apply Z.mod_pos_bound. lia.
  - intros src' Hagree.
    assert (E : forall i x, (i < 12)%nat -> i <> 5%nat ->
              (c0 :: c1 :: c2 :: c3 :: c4 :: c5 :: c6 :: c7 :: c8 :: c9 :: c10 :: c11 :: tl) !! i
              = Some x -> src' !! i = Some x)
      by (intros i x Hi Hne Hx; rewrite Hagree by assumption; exact Hx).
    unfold emapi_deserialize, load. simpl.
    rewrite (E 0%nat c0), (E 1%nat c1), (E 2%nat c2), (E 3%nat c3), (E 4%nat c4),
      (E 7%nat c7), (E 6%nat c6), (E 11%nat c11), (E 10%nat c10), (E 9%nat c9),
      (E 8%nat c8) by (reflexivity || lia).
    reflexivity.
Qed.

Lemma hdr_decode_wf_witness :
  exists h,
    emapi_deserialize (Some (ObjHdr hdr_zero)) (Some (replicate 12 0xA5)) EMOB_HDR None
    = Ret (12, Some (ObjHdr h)) /\
    hdr_wf h /\ hdr_rsvd h = hdr_rsvd hdr_zero /\
    (forall src' : list Z,
       (forall i : nat, (i < 12)%nat -> i <> 5%nat -> src' !! i = replicate 12 0xA5 !! i) ->
       emapi_deserialize (Some (ObjHdr hdr_zero)) (Some src') EMOB_HDR None
       = Ret (12, Some (ObjHdr h))).
Proof.
  apply (hdr_decode_wf (replicate 12 0xA5) hdr_zero None).
  - simpl. lia.
  - cbn [take replicate]. repeat constructor; unfold is_u8; lia.
  - unfold is_u8. simpl. lia.
Defined.

(** ** Buffers that are too short *)

(** X4: header decoding checks no length.  With fewer than twelve bytes in
    the source buffer the call does not return an error: it reads past the
    end of the buffer. *)
Theorem hdr_decode_short (src : list Z) (o : emapi_hdr) (param : option Z) :
  (length src < 12)%nat ->
  emapi_deserialize (Some (ObjHdr o)) (Some src) EMOB_HDR param = Fault ReadPastEnd.
Proof.
  intros H. do 12 (destruct src as [|? src]; [reflexivity|]).
  simpl in H. lia.
Qed.

Lemma hdr_decode_short_witness :
  emapi_deserialize (Some (ObjHdr hdr_zero)) (Some (replicate 11 0x01)) EMOB_HDR None
  = Fault ReadPastEnd.
Proof. apply (hdr_decode_short (replicate 11 0x01) hdr_zero None). simpl. lia. Defined.

(** X5: header encoding checks no length either.  With fewer than twelve
    bytes in the destination buffer the call writes past its end. *)
Theorem serialize_hdr_short_buffer (buf : list Z) (h : emapi_hdr) (param : option Z) :
  (length buf < 12)%nat ->
  emapi_serialize (Some buf) (Some (ObjHdr h)) EMOB_HDR param = Fault WritePastEnd.
Proof.
  intros H. do 12 (destruct buf as [|? buf]; [reflexivity|]).
  simpl in H. lia.
Qed.

Lemma serialize_hdr_short_buffer_witness :
  emapi_serialize (Some (replicate 11 0)) (Some (ObjHdr test_hdr)) EMOB_HDR None
  = Fault WritePastEnd.
Proof. apply (serialize_hdr_short_buffer (replicate 11 0) test_hdr None). simpl. lia. Defined.

(** X6: a descriptor needs [2 + len] bytes of buffer.  Serializing a
    descriptor that fits its structure into a buffer with fewer bytes writes
    past the end of the buffer. *)
Theorem serialize_dev_short_buffer (buf : list Z) (d : emapi_dev) (l : list emapi_dev)
    (param : option Z) :
  dev_ok d -> Z.of_nat (length buf) < 2 + dev_len d ->
  emapi_serialize (Some buf) (Some (ObjDev (d :: l))) EMOB_LIST_DEV param
  = Fault WritePastEnd.
Proof.
  intros Hd Hv. pose proof (dev_ok_len d Hd) as Hl.
  destruct Hd as [[Hid Hln Hname] _].
  destruct buf as [|c0 [|c1 v]]; [reflexivity | reflexivity |].
  unfold emapi_serialize. simpl. rewrite drop_0.
  unfold memcpy. rewrite Hname.
  destruct (Nat.leb_spec (Z.to_nat (dev_len d)) (Z.to_nat EMLN_DEV_NAME));
    [|unfold EMLN_DEV_NAME in *; lia].
  destruct (Nat.leb_spec (Z.to_nat (dev_len d)) (length v));
    [simpl in Hv; lia|].
  reflexivity.
Qed.

Lemma serialize_dev_short_buffer_witness :
  emapi_serialize (Some (replicate 13 0)) (Some (ObjDev [test_dev])) EMOB_LIST_DEV None
  = Fault WritePastEnd.
Proof.
  apply (serialize_dev_short_buffer (replicate 13 0) test_dev [] None).
  - auto with emapi.
  - simpl. lia.
Defined.

(** X7: encoding does not check the name length.  For a descriptor whose
    [len] exceeds the 125 bytes of its name array, the copy into the buffer
    reads past the end of [name]; no error is returned. *)
Theorem serialize_oversize_name (buf : list Z) (d : emapi_dev) (l : list emapi_dev)
    (param : option Z) :
  slot_ok d -> EMLN_DEV_NAME < dev_len d -> (2 <= length buf)%nat ->
  emapi_serialize (Some buf) (Some (ObjDev (d :: l))) EMOB_LIST_DEV param
  = Fault ReadPastEnd.
Proof.
  unfold slot_ok, EMLN_DEV_NAME. intros Hname Hbig Hv.
  destruct buf as [|c0 [|c1 v]]; [simpl in Hv; lia ..|].
  unfold emapi_serialize. simpl. rewrite drop_0.
  unfold memcpy. rewrite Hname.
  destruct (Nat.leb_spec (Z.to_nat (dev_len d)) (Z.to_nat 125)); [lia|].
  reflexivity.
Qed.

Lemma serialize_oversize_name_witness :
  emapi_serialize (Some (replicate 300 0))
    (Some (ObjDev [mk_dev 0x21 200 (replicate 125 0x41)])) EMOB_LIST_DEV None
  = Fault ReadPastEnd.
Proof.
  apply (serialize_oversize_name (replicate 300 0) (mk_dev 0x21 200 (replicate 125 0x41))
           [] None).
  - reflexivity.
  - unfold EMLN_DEV_NAME. simpl. lia.
  - simpl. lia.
Defined.

(** ** What a returning device-list decode has done *)

Lemma bind_ret {A B : Type} (m : outcome A) (k : A -> outcome B) (b : B) :
  bind m k = Ret b -> exists a, m = Ret a /\ k a = Ret b.
Proof. destruct m as [a|f]; simpl; intros H; [eauto | discriminate H]. Qed.

Lemma load_ret (p : list Z) (k : nat) (v : Z) : load p k = Ret v -> p !! k = Some v.
Proof.
  unfold load. destruct (p !! k); intros H; [congruence | discriminate H].
Qed.

(** The loop keeps its cursor within the buffer and its pointer within the
    array: a result is only returned when every access was in bounds. *)
Lemma list_dev_loop_bounds (n : nat) :
  forall (src : list Z) (k : Z) (o : nat) (dst : list emapi_dev) (k' : Z)
         (dst' : list emapi_dev),
    Forall is_u8 src -> Z.of_nat (length src) < 2 ^ 32 ->
    0 <= k <= Z.of_nat (length src) -> (o <= length dst)%nat ->
    deserialize_list_dev n src k o dst = Ret (k', dst') ->
    k + 2 * Z.of_nat n <= k' <= Z.of_nat (length src) /\
    length dst' = length dst /\ (o + n <= length dst)%nat /\
    take o dst' = take o dst /\ drop (o + n) dst' = drop (o + n) dst.
Proof.
  induction n as [|n IH]; intros src k o dst k' dst' Hsrc Hmax Hk Hodst H.
  - simpl in H. injection H as <- <-. rewrite Nat.add_0_r. repeat split; lia.
  - cbn [deserialize_list_dev] in H.
    apply bind_ret in H as (id & Hid & H). apply load_ret in Hid.
    apply bind_ret in H as (d & Hd & H).
    destruct (dst !! o) as [d0|] eqn:Ho; [|discriminate Hd].
    apply bind_ret in H as (ln & Hln & H). apply load_ret in Hln.
    apply bind_ret in H as (name & Hname & H).
    pose proof (lookup_lt_Some _ _ _ Hid) as Lid.
    pose proof (lookup_lt_Some _ _ _ Ho) as Lo.
    assert (U1 : to_u32 (k + 1) = k + 1) by (apply to_u32_id; unfold is_u32; lia).
    rewrite U1 in *.
    pose proof (lookup_lt_Some _ _ _ Hln) as Lln.
    pose proof (Forall_lookup_1 _ _ _ _ Hsrc Hln) as Bln. unfold is_u8 in Bln.
    assert (U2 : to_u32 (k + 1 + 1) = k + 2)
      by (rewrite to_u32_id by (unfold is_u32; lia); lia).
    rewrite U2 in *.
    assert (Hend : k + 2 + ln <= Z.of_nat (length src)).
    { destruct (Z.eqb_spec ln 0) as [E|E]; [lia|].
      unfold memcpy in Hname. rewrite length_drop in Hname.
      destruct (Nat.leb_spec (Z.to_nat ln) (length src - Z.to_nat (k + 2)));
        [lia | discriminate Hname]. }
    assert (U3 : to_u32 (k + 2 + ln) = k + 2 + ln) by (apply to_u32_id; unfold is_u32; lia).
    rewrite U3 in H.
    apply IH in H as (Hk' & Hlen & Hon & Htake & Hdrop);
      [| assumption | assumption | lia | rewrite length_insert; lia].
    rewrite length_insert in Hlen, Hon.
    repeat split; try lia.
    + apply (f_equal (take o)) in Htake.
      rewrite !take_take, Nat.min_l in Htake by lia.
      rewrite Htake. apply take_insert_ge. lia.
    + replace (o + S n)%nat with (S o + n)%nat by lia.
      rewrite Hdrop. apply drop_insert_lt. lia.
Qed.



(** ** Decoding in pieces, and what the bytes determine *)

Lemma devs_wire_app (l1 l2 : list emapi_dev) :
  devs_wire (l1 ++ l2) = devs_wire l1 ++ devs_wire l2.
Proof. unfold devs_wire. apply flat_map_app. Qed.

Lemma wire_size_app (l1 l2 : list emapi_dev) :
  wire_size (l1 ++ l2) = wire_size l1 + wire_size l2.
Proof.
  induction l1 as [|d l1 IH]; [reflexivity|].
  change (wire_size ((d :: l1) ++ l2)) with (2 + dev_len d + wire_size (l1 ++ l2)).
  change (wire_size (d :: l1)) with (2 + dev_len d + wire_size l1).
  rewrite IH. lia.
Qed.

Lemma decoded_devs_app (l1 : list emapi_dev) :
  forall l2 todo : list emapi_dev,
    (length l1 <= length todo)%nat ->
    decoded_devs (l1 ++ l2) todo
    = take (length l1) (decoded_devs l1 todo) ++ decoded_devs l2 (drop (length l1) todo).
Proof.
  induction l1 as [|d l1 IH]; intros l2 todo Hlen; [reflexivity|].
  destruct todo as [|t todo]; [simpl in Hlen; lia|].
  simpl. f_equal. apply IH. simpl in Hlen. lia.
Qed.

(** X9: a device list may be decoded in pieces.  Decoding [n1] descriptors,
    and then [n2] more from where the first call stopped (at [&src[k1]], into
    [&dst[n1]]), consumes the same bytes and fills the same slots as one call
    with a count of [n1 + n2]. *)
Theorem deserialize_in_pieces (ds1 ds2 dst : list emapi_dev) (rest : list Z) :
  Forall dev_ok ds1 -> Forall dev_ok ds2 ->
  (length ds1 + length ds2 <= length dst)%nat -> Forall slot_ok dst ->
  wire_size (ds1 ++ ds2) < 2 ^ 31 ->
  exists (k1 k2 : Z) (dst1 dst2 : list emapi_dev),
    emapi_deserialize (Some (ObjDev dst)) (Some (devs_wire (ds1 ++ ds2) ++ rest))
      EMOB_LIST_DEV (Some (Z.of_nat (length ds1)))
    = Ret (k1, Some (ObjDev dst1)) /\
    emapi_deserialize (Some (ObjDev (drop (length ds1) dst1)))
      (Some (drop (Z.to_nat k1) (devs_wire (ds1 ++ ds2) ++ rest)))
      EMOB_LIST_DEV (Some (Z.of_nat (length ds2)))
    = Ret (k2, Some (ObjDev dst2)) /\
    emapi_deserialize (Some (ObjDev dst)) (Some (devs_wire (ds1 ++ ds2) ++ rest))
      EMOB_LIST_DEV (Some (Z.of_nat (length ds1 + length ds2)))
    = Ret (k1 + k2, Some (ObjDev (take (length ds1) dst1 ++ dst2))).
Proof.
  intros H1 H2 Hlen Hdst Hsz.
  pose proof (wire_size_nonneg ds1 H1) as W1. pose proof (wire_size_nonneg ds2 H2) as W2.
  rewrite wire_size_app in Hsz.
  exists (wire_size ds1), (wire_size ds2), (decoded_devs ds1 dst),
    (decoded_devs ds2 (drop (length ds1) dst)).
  split; [|split].
  - rewrite devs_wire_app, <- app_assoc.
    apply deserialize_wire; try assumption; lia.
  - rewrite devs_wire_app, <- app_assoc.
    rewrite drop_app_length' by (symmetry; apply devs_wire_length; exact H1).
    rewrite decoded_devs_rest.
    apply deserialize_wire; try assumption.
    + rewrite length_drop. lia.
    + apply Forall_drop. exact Hdst.
    + lia.
  - rewrite <- length_app, <- wire_size_app, <- decoded_devs_app by lia.
    apply deserialize_wire.
    + apply Forall_app_2; assumption.
    + rewrite length_app. lia.
    + exact Hdst.
    + rewrite wire_size_app. lia.
Qed.

Lemma deserialize_in_pieces_witness :
  exists (k1 k2 : Z) (dst1 dst2 : list emapi_dev),
    emapi_deserialize (Some (ObjDev (replicate 3 dev_zero)))
      (Some (devs_wire ([test_dev] ++ [dev_zero; test_dev]) ++ [0x99]))
      EMOB_LIST_DEV (Some (Z.of_nat (length [test_dev])))
    = Ret (k1, Some (ObjDev dst1)) /\
    emapi_deserialize (Some (ObjDev (drop (length [test_dev]) dst1)))
      (Some (drop (Z.to_nat k1) (devs_wire ([test_dev] ++ [dev_zero; test_dev]) ++ [0x99])))
      EMOB_LIST_DEV (Some (Z.of_nat (length [dev_zero; test_dev])))
    = Ret (k2, Some (ObjDev dst2)) /\
    emapi_deserialize (Some (ObjDev (replicate 3 dev_zero)))
      (Some (devs_wire ([test_dev] ++ [dev_zero; test_dev]) ++ [0x99]))
      EMOB_LIST_DEV (Some (Z.of_nat (length [test_dev] + length [dev_zero; test_dev])))
    = Ret (k1 + k2, Some (ObjDev (take (length [test_dev]) dst1 ++ dst2))).
Proof.
  apply (deserialize_in_pieces [test_dev] [dev_zero; test_dev] (replicate 3 dev_zero) [0x99]).
  - auto with emapi.
  - auto with emapi.
  - simpl. lia.
  - auto with emapi.
  - vm_compute. reflexivity.
Defined.

Lemma dev_wire_inj (d1 d2 : emapi_dev) (r1 r2 : list Z) :
  dev_ok d1 -> dev_ok d2 -> dev_wire d1 ++ r1 = dev_wire d2 ++ r2 ->
  dev_view d1 = dev_view d2 /\ r1 = r2.
Proof.
  intros H1 H2 E.
  pose proof (dev_wire_name_length d1 H1) as L1.
  pose proof (dev_wire_name_length d2 H2) as L2.
  unfold dev_wire, dev_view in *. simpl in E.
  injection E as Eid Eln E. rewrite Eln in *.
  apply app_inj_1 in E as [En Er]; [|congruence].
  rewrite Eid, En. split; [reflexivity | exact Er].
Qed.

Lemma devs_wire_inj (l1 : list emapi_dev) :
  forall l2 : list emapi_dev,
    Forall dev_ok l1 -> Forall dev_ok l2 -> devs_wire l1 = devs_wire l2 ->
    dev_view <$> l1 = dev_view <$> l2.
Proof.
  induction l1 as [|d1 l1 IH]; intros [|d2 l2] H1 H2 E; try reflexivity;
    try discriminate E.
  apply Forall_cons in H1 as [Hd1 H1]. apply Forall_cons in H2 as [Hd2 H2].
  change (devs_wire (d1 :: l1)) with (dev_wire d1 ++ devs_wire l1) in E.
  change (devs_wire (d2 :: l2)) with (dev_wire d2 ++ devs_wire l2) in E.
  apply dev_wire_inj in E as [Ev Er]; [| assumption ..].
  simpl. rewrite Ev. f_equal. apply IH; assumption.
Qed.

(** X10: the bytes determine the descriptors.  If two lists of descriptors,
    serialized back to back into the same buffer, report the same count and
    leave the same bytes, then they agree in number, ids, name lengths and
    names: no count is needed to tell where a list ends. *)
Theorem serialize_list_dev_inj (l1 l2 : list emapi_dev) (buf : list Z) :
  Forall dev_ok l1 -> Forall dev_ok l2 ->
  (Z.to_nat (wire_size l1) <= length buf)%nat ->
  (Z.to_nat (wire_size l2) <= length buf)%nat ->
  serialize_list_dev l1 buf 0 = serialize_list_dev l2 buf 0 ->
  dev_view <$> l1 = dev_view <$> l2.
Proof.
  intros H1 H2 B1 B2 E.
  rewrite !serialize_list_dev_fits in E by (assumption || lia).
  injection E as Ek E. cbn [Z.add] in *. rewrite Ek in E. simpl in E.
  apply app_inv_tail in E. apply devs_wire_inj; assumption.
Qed.

Lemma serialize_list_dev_inj_witness :
  dev_view <$> [test_dev; dev_zero]
  = dev_view <$> [mk_dev 0x21 12 (take 12 (dev_name test_dev) ++ replicate 113 0xAA);
                  mk_dev 0 0 (replicate 125 0xBB)].
Proof.
  apply (serialize_list_dev_inj [test_dev; dev_zero]
           [mk_dev 0x21 12 (take 12 (dev_name test_dev) ++ replicate 113 0xAA);
            mk_dev 0 0 (replicate 125 0xBB)] (replicate 20 0)).
  - auto with emapi.
  - repeat first [apply Forall_nil_2 | apply Forall_cons_2];
      (split; [split|]; unfold is_u8, EMLN_DEV_NAME; simpl; first [lia | reflexivity]).
  - vm_compute. lia.
  - vm_compute. lia.
  - vm_compute. reflexivity.
Defined.

(** ** The empty name *)

(** X11: a descriptor with [len = 0] takes exactly two bytes.  Serializing it
    writes [id] and 0 at offsets 0 and 1, returns 2 and touches nothing else,
    whatever the name array holds.  Deserializing such a pair consumes 2
    bytes, and of the slot's name array only [name[0]] is assigned (to 0):
    the bytes from [name[1]] on stay as they were. *)
Theorem empty_name_boundary (d t : emapi_dev) (l dst : list emapi_dev)
    (buf rest : list Z) :
  is_u8 (dev_id d) -> dev_len d = 0 -> (2 <= length buf)%nat ->
  (0 < length (dev_name t))%nat ->
  emapi_serialize (Some buf) (Some (ObjDev (d :: l))) EMOB_LIST_DEV None
  = Ret (2, Some (dev_id d :: 0 :: drop 2 buf)) /\
  emapi_deserialize (Some (ObjDev (t :: dst))) (Some (dev_id d :: 0 :: rest))
    EMOB_LIST_DEV None
  = Ret (2, Some (ObjDev (mk_dev (dev_id d) 0 (0 :: drop 1 (dev_name t)) :: dst))).
Proof.
  intros Hid Hln Hbuf Hname.
  destruct buf as [|c0 [|c1 v]]; [simpl in Hbuf; lia ..|].
  destruct d as [i n nm]. destruct t as [ti tn [|t0 tnm]]; [simpl in Hname; lia|].
  simpl in *. subst n. split.
  - unfold emapi_serialize, memcpy. simpl. rewrite to_u8_id by assumption.
    rewrite drop_0. reflexivity.
  - reflexivity.
Qed.

Lemma empty_name_boundary_witness :
  emapi_serialize (Some (replicate 4 0xEE))
    (Some (ObjDev [mk_dev 7 0 (replicate 125 0x41)])) EMOB_LIST_DEV None
  = Ret (2, Some (dev_id (mk_dev 7 0 (replicate 125 0x41)) :: 0
                  :: drop 2 (replicate 4 0xEE))) /\
  emapi_deserialize (Some (ObjDev [mk_dev 1 3 (replicate 125 0x42)]))
    (Some (dev_id (mk_dev 7 0 (replicate 125 0x41)) :: 0 :: [0x99]))
    EMOB_LIST_DEV None
  = Ret (2, Some (ObjDev [mk_dev (dev_id (mk_dev 7 0 (replicate 125 0x41))) 0
                            (0 :: drop 1 (dev_name (mk_dev 1 3 (replicate 125 0x42))))])).
Proof.
  apply (empty_name_boundary (mk_dev 7 0 (replicate 125 0x41))
           (mk_dev 1 3 (replicate 125 0x42)) [] [] (replicate 4 0xEE) [0x99]).
  - unfold is_u8. simpl. lia.
  - reflexivity.
  - simpl. lia.
  - simpl. lia.
Defined.

(** ** Building headers *)

Lemma built_hdr_wf (op x y : Z) : is_u8 op -> hdr_wf (built_hdr op x y).
Proof.
  intros Hop. split; simpl; try assumption; try (widths; lia).
  - apply to_u8_range.
  - unfold is_u32, to_u32. apply Z.mod_pos_bound. lia.
Qed.

(** X12: what the builders make survives the wire.  For each of
    [emapi_fill_conn], [emapi_fill_disconn] and [emapi_fill_listdev], any
    message and any two [int] arguments, the header left in the message is
    within its field widths with a zero reserved byte, and serializing it and
    deserializing the bytes into a zeroed header gives the same header. *)
Theorem built_header_roundtrip (m0 : emapi_msg) (x y : Z) (buf : list Z) :
  (12 <= length buf)%nat ->
  Forall (fun fill : option emapi_msg -> Z -> Z -> Z * option emapi_msg =>
            exists (m : emapi_msg) (out : list Z),
              fill (Some m0) x y = (0, Some m) /\
              hdr_wf (msg_hdr m) /\ hdr_rsvd (msg_hdr m) = 0 /\
              emapi_serialize (Some buf) (Some (ObjHdr (msg_hdr m))) EMOB_HDR None
              = Ret (12, Some out) /\
              emapi_deserialize (Some (ObjHdr hdr_zero)) (Some out) EMOB_HDR None
              = Ret (12, Some (ObjHdr (msg_hdr m))))
         [emapi_fill_conn; emapi_fill_disconn; emapi_fill_listdev].
Proof.
  intros Hlen.
  assert (G : forall op, is_u8 op ->
            exists out,
              emapi_serialize (Some buf) (Some (ObjHdr (built_hdr op x y))) EMOB_HDR None
              = Ret (12, Some out) /\
              emapi_deserialize (Some (ObjHdr hdr_zero)) (Some out) EMOB_HDR None
              = Ret (12, Some (ObjHdr (built_hdr op x y)))).
  { intros op Hop.
    destruct (serialize_hdr_cells (built_hdr op x y) buf Hlen) as (c5 & _ & Hs).
    eexists. split; [exact Hs|].
    rewrite deserialize_hdr_wire by (apply built_hdr_wf; exact Hop). reflexivity. }
  repeat first [apply Forall_nil_2 | apply Forall_cons_2].
  - destruct (G 0x02) as (out & Hs & Hd); [unfold is_u8; lia|].
    eexists _, out. split; [reflexivity|].
    split; [apply (built_hdr_wf 0x02); unfold is_u8; lia|].
    split; [reflexivity|]. split; [exact Hs | exact Hd].
  - destruct (G 0x03) as (out & Hs & Hd); [unfold is_u8; lia|].
    eexists _, out. split; [reflexivity|].
    split; [apply (built_hdr_wf 0x03); unfold is_u8; lia|].
    split; [reflexivity|]. split; [exact Hs | exact Hd].
  - destruct (G 0x01) as (out & Hs & Hd); [unfold is_u8; lia|].
    eexists _, out. split; [reflexivity|].
    split; [apply (built_hdr_wf 0x01); unfold is_u8; lia|].
    split; [reflexivity|]. split; [exact Hs | exact Hd].
Qed.

Lemma built_header_roundtrip_witness :
  Forall (fun fill : option emapi_msg -> Z -> Z -> Z * option emapi_msg =>
            exists (m : emapi_msg) (out : list Z),
              fill (Some (mk_msg test_hdr [])) (-1) (-2) = (0, Some m) /\
              hdr_wf (msg_hdr m) /\ hdr_rsvd (msg_hdr m) = 0 /\
              emapi_serialize (Some (replicate 12 0xEE)) (Some (ObjHdr (msg_hdr m)))
                EMOB_HDR None
              = Ret (12, Some out) /\
              emapi_deserialize (Some (ObjHdr hdr_zero)) (Some out) EMOB_HDR None
              = Ret (12, Some (ObjHdr (msg_hdr m))))
         [emapi_fill_conn; emapi_fill_disconn; emapi_fill_listdev].
Proof.
  apply (built_header_roundtrip (mk_msg test_hdr []) (-1) (-2) (replicate 12 0xEE)).
  simpl. lia.
Defined.

(** X13: [emapi_fill_hdr].  On NULL it returns 0.  On a header, with
    arguments within their parameter types, it returns the message length
    [12 + len], which is never 0; the header it leaves is within its field
    widths, has version 0, the low four bits of [type] as its type and the
    reserved byte it had before; and serializing that header and
    deserializing the bytes over the old one gives it back. *)
Theorem fill_hdr_postcondition (h0 : emapi_hdr) (type tag rc opcode len a b : Z)
    (buf : list Z) :
  is_u8 type -> is_u8 tag -> is_u8 rc -> is_u8 opcode -> is_u16 len -> is_u8 a ->
  is_u32 b -> is_u8 (hdr_rsvd h0) -> (12 <= length buf)%nat ->
  emapi_fill_hdr None type tag rc opcode len a b = (0, None) /\
  exists (h : emapi_hdr) (out : list Z),
    emapi_fill_hdr (Some h0) type tag rc opcode len a b = (12 + len, Some h) /\
    12 + len <> 0 /\
    hdr_wf h /\ hdr_ver h = 0 /\ hdr_type h = type mod 16 /\ hdr_rsvd h = hdr_rsvd h0 /\
    emapi_serialize (Some buf) (Some (ObjHdr h)) EMOB_HDR None = Ret (12, Some out) /\
    emapi_deserialize (Some (ObjHdr h0)) (Some out) EMOB_HDR None
    = Ret (12, Some (ObjHdr h)).
Proof.
  intros Hty Htg Hrc Hop Hln Ha Hb Hrs Hlen. split; [reflexivity|].
  set (h := {| hdr_ver := 0; hdr_type := to_u4 type; hdr_tag := tag; hdr_rc := rc;
               hdr_opcode := opcode; hdr_len := len; hdr_a := a; hdr_b := b;
               hdr_rsvd := hdr_rsvd h0 |}).
  assert (Hwf : hdr_wf h).
  { split; simpl; try assumption.
    - unfold is_u4, to_u4. apply Z.mod_pos_bound. lia.
    - widths. lia. }
  destruct (serialize_hdr_cells h buf Hlen) as (c5 & _ & Hs).
  exists h. eexists. split; [|split; [|split; [exact Hwf|]]].
  - unfold emapi_fill_hdr, EMLN_HDR. rewrite to_int_id by (widths; lia). reflexivity.
  - widths. lia.
  - split; [reflexivity|]. split; [reflexivity|]. split; [reflexivity|].
    split; [exact Hs|]. rewrite deserialize_hdr_wire by exact Hwf. reflexivity.
Qed.

Lemma fill_hdr_postcondition_witness :
  emapi_fill_hdr None 0x31 0x42 0xCD 0xAB 0x1FFF 0x23 0x12345678 = (0, None) /\
  exists (h : emapi_hdr) (out : list Z),
    emapi_fill_hdr (Some (with_rsvd hdr_zero 0x55)) 0x31 0x42 0xCD 0xAB 0x1FFF 0x23 0x12345678
    = (12 + 0x1FFF, Some h) /\
    12 + 0x1FFF <> 0 /\
    hdr_wf h /\ hdr_ver h = 0 /\ hdr_type h = 0x31 mod 16 /\
    hdr_rsvd h = hdr_rsvd (with_rsvd hdr_zero 0x55) /\
    emapi_serialize (Some (replicate 12 0)) (Some (ObjHdr h)) EMOB_HDR None
    = Ret (12, Some out) /\
    emapi_deserialize (Some (ObjHdr (with_rsvd hdr_zero 0x55))) (Some out) EMOB_HDR None
    = Ret (12, Some (ObjHdr h)).
Proof.
  apply (fill_hdr_postcondition (with_rsvd hdr_zero 0x55) 0x31 0x42 0xCD 0xAB 0x1FFF 0x23
           0x12345678 (replicate 12 0)); widths; simpl; lia.
Defined.

(** ** Resolved kinds and the codec *)

(** X14: the two resolvers are one function, and what they resolve is a
    kind the codec accepts.  For every opcode the request and the response
    kind are equal; the kind is [EMOB_LIST_DEV] exactly at opcode 0x01 and
    [EMOB_NULL] otherwise, never the header kind or an out-of-range value; and
    with the kind resolved for any other opcode both codec directions return
    0 and touch nothing, whatever the buffers are (NULL included). *)
Theorem resolved_kind_accepted (opcode : Z) (dst : object) (buf : option (list Z))
    (obj : option object) (param : option Z) :
  emapi_emob_req opcode = emapi_emob_rsp opcode /\
  (emapi_emob_rsp opcode = EMOB_LIST_DEV <-> opcode = EMOP_LIST_DEV) /\
  (emapi_emob_rsp opcode = EMOB_NULL <-> opcode <> EMOP_LIST_DEV) /\
  (opcode <> EMOP_LIST_DEV ->
   emapi_deserialize (Some dst) buf (emapi_emob_rsp opcode) param = Ret (0, Some dst) /\
   emapi_serialize buf obj (emapi_emob_req opcode) param = Ret (0, buf)).
Proof.
  assert (E : emapi_emob_req opcode = emapi_emob_rsp opcode) by reflexivity.
  rewrite E, emob_rsp_table. unfold EMOP_LIST_DEV, EMOB_LIST_DEV, EMOB_NULL.
  destruct (Z.eqb_spec opcode 1) as [->|Hne].
  - repeat split; intros; first [reflexivity | discriminate | contradiction | lia].
  - repeat split; intros; first [reflexivity | discriminate | contradiction | lia].
Qed.

(** ** Printing and the test bench *)

Lemma c_string_terminated (pre tl : list Z) :
  Forall (fun c => c <> 0) pre -> c_string (pre ++ 0 :: tl) = Ret pre.
Proof.
  induction 1 as [|c pre Hc _ IH]; [reflexivity|].
  simpl. destruct (Z.eqb_spec c 0); [contradiction|]. rewrite IH. reflexivity.
Qed.

Lemma c_string_unterminated (p : list Z) :
  Forall (fun c => c <> 0) p -> c_string p = Fault ReadPastEnd.
Proof.
  induction 1 as [|c p Hc _ IH]; [reflexivity|].
  simpl. destruct (Z.eqb_spec c 0); [contradiction|]. rewrite IH. reflexivity.
Qed.

Lemma memset_hdr_whole (h : emapi_hdr) :
  memset_obj (ObjHdr h) 12 = Ret (ObjHdr hdr_zero).
Proof. reflexivity. Qed.

Lemma memset_dev_whole (d : emapi_dev) :
  slot_ok d -> memset_obj (ObjDev [d]) 127 = Ret (ObjDev [dev_zero]).
Proof.
  unfold slot_ok, EMLN_DEV_NAME. destruct d as [i n nm]. cbn [dev_name]. intros Hname.
  unfold memset_obj. cbv zeta. cbn [flat_map]. rewrite app_nil_r.
  unfold dev_mem. cbn [dev_id dev_len dev_name length]. rewrite Hname.
  change (127 <=? Z.of_nat (S (S (Z.to_nat 125)))) with true. cbv iota.
  change (Z.to_nat 127) with (2 + 125)%nat at 2. cbn [Nat.add drop].
  rewrite drop_ge by lia. reflexivity.
Qed.

(** The buffer [verify_object] allocates, after the header was serialized. *)
Lemma serialize_hdr_fresh (h : emapi_hdr) (n : nat) :
  (12 <= n)%nat ->
  emapi_serialize (Some (replicate n 0)) (Some (ObjHdr h)) EMOB_HDR None
  = Ret (12, Some (hdr_wire h 0 ++ replicate (n - 12) 0)).
Proof.
  intros Hn.
  destruct (serialize_hdr_cells h (replicate n 0)) as (c5 & H5 & Hs);
    [rewrite length_replicate; exact Hn|].
  rewrite lookup_replicate_2 in H5 by lia. injection H5 as <-.
  rewrite Hs, drop_replicate. reflexivity.
Qed.

(** X15: the header test of the test bench, for every header.  For a header
    within its field widths and a buffer length of at least 12,
    [verify_object] (as [verify_hdr] calls it) returns 0; the object ends as
    the original with its reserved byte cleared; the buffer it prints is the
    wire image followed by zeros; and the dump of the object printed after the
    round trip is the dump printed before it. *)
Theorem verify_object_hdr (h : emapi_hdr) (buf_len : Z) :
  hdr_wf h -> 12 <= buf_len ->
  exists dump : list event,
    emapi_prnt (Some (ObjHdr h)) EMOB_HDR = Ret dump /\
    verify_object (Some (ObjHdr h)) 12 EMOB_HDR buf_len
    = Ret (0, Some (ObjHdr (with_rsvd h 0)),
           dump ++ [PrntBuf (hdr_wire h 0 ++ replicate (Z.to_nat buf_len - 12) 0)
                      buf_len 4 1] ++ dump).
Proof.
  intros Hwf Hlen. eexists. split; [reflexivity|].
  unfold verify_object.
  rewrite serialize_hdr_fresh by lia.
  cbn [emapi_prnt emapi_prnt_hdr EMOB_HDR EMOB_LIST_DEV Z.eqb Pos.eqb bind deref as_hdr
       snd fst].
  rewrite memset_hdr_whole. cbn [bind].
  rewrite deserialize_hdr_wire by exact Hwf.
  reflexivity.
Qed.

Lemma verify_object_hdr_witness :
  exists dump : list event,
    emapi_prnt (Some (ObjHdr test_hdr)) EMOB_HDR = Ret dump /\
    verify_hdr
    = Ret (0, Some (ObjHdr (with_rsvd test_hdr 0)),
           dump ++ [PrntBuf (hdr_wire test_hdr 0 ++ replicate (Z.to_nat EMLN_HDR - 12) 0)
                      EMLN_HDR 4 1] ++ dump).
Proof.
  apply (verify_object_hdr test_hdr EMLN_HDR).
  - auto with emapi.
  - unfold EMLN_HDR. lia.
Defined.

(** The buffer [verify_object] allocates, after a descriptor was serialized. *)
Lemma serialize_dev_fresh (d : emapi_dev) (n : nat) :
  dev_ok d -> (Z.to_nat (2 + dev_len d) <= n)%nat ->
  emapi_serialize (Some (replicate n 0)) (Some (ObjDev [d])) EMOB_LIST_DEV None
  = Ret (2 + dev_len d,
         Some (dev_wire d ++ replicate (n - Z.to_nat (2 + dev_len d)) 0)).
Proof.
  intros Hd Hn.
  rewrite serialize_dev_fits by (try assumption; rewrite length_replicate; exact Hn).
  rewrite drop_replicate. reflexivity.
Qed.

(** One descriptor decoded with no count given. *)
Lemma deserialize_one (d t : emapi_dev) (rest : list Z) :
  dev_ok d -> slot_ok t ->
  emapi_deserialize (Some (ObjDev [t])) (Some (dev_wire d ++ rest)) EMOB_LIST_DEV None
  = Ret (2 + dev_len d, Some (ObjDev [decoded_dev d t])).
Proof.
  intros Hd Ht. pose proof (dev_ok_len d Hd) as Hl.
  pose proof (deserialize_wire [d] [t] rest) as P.
  change (devs_wire [d]) with (dev_wire d ++ []) in P. rewrite app_nil_r in P.
  change (wire_size [d]) with (2 + dev_len d + 0) in P. rewrite Z.add_0_r in P.
  apply P; auto with emapi. change (2 ^ 31) with 2147483648. lia.
Qed.

(** X16: the descriptor test of the test bench, for every descriptor.  For a
    descriptor that fits its structure, whose name holds a NUL among its first
    [len] bytes, and a buffer length of at least [2 + len], [verify_object]
    (as [verify_dev] calls it) returns 0; both printouts show the id and the
    name up to that NUL; the buffer printed is the wire image followed by
    zeros; the object ends with the first [len] name bytes of the original
    and zeros after them, which is the original when that was zero-padded. *)
Theorem verify_object_dev (d : emapi_dev) (pre tl : list Z) (buf_len : Z) :
  dev_ok d -> dev_name d = pre ++ 0 :: tl -> Forall (fun c => c <> 0) pre ->
  Z.of_nat (length pre) < dev_len d -> 2 + dev_len d <= buf_len ->
  let dump := [Printf ("%02d - %s" ++ nl) [ArgInt (dev_id d); ArgStr pre]] in
  emapi_prnt (Some (ObjDev [d])) EMOB_LIST_DEV = Ret dump /\
  verify_object (Some (ObjDev [d])) 127 EMOB_LIST_DEV buf_len
  = Ret (0, Some (ObjDev [decoded_dev d dev_zero]),
         dump ++ [PrntBuf (dev_wire d
                           ++ replicate (Z.to_nat buf_len - Z.to_nat (2 + dev_len d)) 0)
                    buf_len 4 1] ++ dump) /\
  (zero_padded d -> decoded_dev d dev_zero = d).
Proof.
  intros Hd Hname Hpre Hlen Hbuf dump.
  pose proof (dev_ok_len d Hd) as Hl.
  assert (Hslot : slot_ok d) by (destruct Hd as [[_ _ Hn] _]; exact Hn).
  assert (Hp : emapi_prnt (Some (ObjDev [d])) EMOB_LIST_DEV = Ret dump).
  { cbn [emapi_prnt emapi_prnt_list_dev EMOB_HDR EMOB_LIST_DEV Z.eqb Pos.eqb bind deref
         as_dev]. rewrite Hname, c_string_terminated by exact Hpre. reflexivity. }
  assert (Hp' : emapi_prnt (Some (ObjDev [decoded_dev d dev_zero])) EMOB_LIST_DEV
                = Ret dump).
  { cbn [emapi_prnt emapi_prnt_list_dev EMOB_HDR EMOB_LIST_DEV Z.eqb Pos.eqb bind deref
         as_dev]. unfold decoded_dev. cbn [dev_name dev_id].
    destruct (Z.eqb_spec (dev_len d) 0) as [E|E]; [lia|].
    rewrite Hname.
    rewrite take_app_ge by lia.
    replace (Z.to_nat (dev_len d) - length pre)%nat
      with (S (Z.to_nat (dev_len d) - length pre - 1)) by lia.
    cbn [take]. rewrite <- app_assoc. cbn [app].
    rewrite c_string_terminated by exact Hpre. reflexivity. }
  split; [exact Hp|]. split.
  - unfold verify_object. rewrite Hp. cbn [bind].
    rewrite serialize_dev_fresh by (assumption || lia).
    cbn [snd fst bind deref]. rewrite memset_dev_whole by exact Hslot. cbn [bind].
    rewrite deserialize_one by auto with emapi.
    cbn [bind snd fst]. rewrite Hp'. reflexivity.
  - intros Hz. apply decoded_dev_exact; [exact Hd | exact Hz | reflexivity].
Qed.

Lemma verify_object_dev_witness :
  let dump :=
    [Printf ("%02d - %s" ++ nl)
       [ArgInt (dev_id test_dev);
        ArgStr [0x44; 0x65; 0x76; 0x69; 0x63; 0x65; 0x20; 0x6E; 0x61; 0x6D; 0x65]]] in
  emapi_prnt (Some (ObjDev [test_dev])) EMOB_LIST_DEV = Ret dump /\
  verify_dev
  = Ret (0, Some (ObjDev [decoded_dev test_dev dev_zero]),
         dump ++ [PrntBuf (dev_wire test_dev
                           ++ replicate (Z.to_nat (dev_len test_dev + 2)
                                         - Z.to_nat (2 + dev_len test_dev)) 0)
                    (dev_len test_dev + 2) 4 1] ++ dump) /\
  (zero_padded test_dev -> decoded_dev test_dev dev_zero = test_dev).
Proof.
  apply (verify_object_dev test_dev
           [0x44; 0x65; 0x76; 0x69; 0x63; 0x65; 0x20; 0x6E; 0x61; 0x6D; 0x65]
           (replicate 113 0) (dev_len test_dev + 2)).
  - auto with emapi.
  - reflexivity.
  - repeat first [apply Forall_nil_2 | apply Forall_cons_2; [lia|]].
  - simpl. lia.
  - simpl. lia.
Defined.

(** X17: printing needs a terminator that decoding does not supply.  A
    descriptor with the longest name, 125 bytes none of which is NUL, is
    decoded without error into any slot, 127 bytes consumed; printing the
    decoded descriptor then reads past the end of its name array, since
    [%s] finds no terminator in it. *)
Theorem print_unterminated_name (d t : emapi_dev) (rest : list Z) :
  dev_ok d -> dev_len d = EMLN_DEV_NAME -> Forall (fun c => c <> 0) (dev_name d) ->
  slot_ok t ->
  exists out : option object,
    emapi_deserialize (Some (ObjDev [t])) (Some (dev_wire d ++ rest)) EMOB_LIST_DEV None
    = Ret (127, out) /\
    emapi_prnt out EMOB_LIST_DEV = Fault ReadPastEnd.
Proof.
  intros Hd Hlen Hnz Ht. eexists. split.
  - rewrite deserialize_one by assumption. rewrite Hlen. reflexivity.
  - cbn [emapi_prnt emapi_prnt_list_dev EMOB_HDR EMOB_LIST_DEV Z.eqb Pos.eqb bind deref
         as_dev]. unfold decoded_dev. cbn [dev_name]. rewrite Hlen.
    change (EMLN_DEV_NAME =? 0) with false. cbv iota.
    destruct Hd as [[_ _ Hn] _]. red in Ht.
    rewrite take_ge, drop_ge, app_nil_r by lia.
    rewrite c_string_unterminated by exact Hnz. reflexivity.
Qed.

Lemma print_unterminated_name_witness :
  exists out : option object,
    emapi_deserialize (Some (ObjDev [dev_zero]))
      (Some (dev_wire (mk_dev 9 125 (replicate 125 0x41)) ++ [0x00]))
      EMOB_LIST_DEV None
    = Ret (127, out) /\
    emapi_prnt out EMOB_LIST_DEV = Fault ReadPastEnd.
Proof.
  apply (print_unterminated_name (mk_dev 9 125 (replicate 125 0x41)) dev_zero [0x00]).
  - split; [split|]; unfold is_u8, EMLN_DEV_NAME; simpl; first [lia | reflexivity].
  - reflexivity.
  - apply Forall_replicate. lia.
  - auto with emapi.
Defined.

(** ** What the returned values mean *)

(** X18: the error return of [emapi_deserialize].  Whenever the call
    returns, on a buffer of fewer than 2^31 bytes, it returns -1 exactly when
    the destination is NULL or the kind is [EMOB_MAX] or above, and then the
    destination is left as it was; every other returned value is the number of
    bytes consumed, between 0 and the length of the buffer. *)
Theorem deserialize_error_iff (dst : option object) (src : list Z) (type : Z)
    (param : option Z) (rv : Z) (out : option object) :
  0 <= type -> Forall is_u8 src -> Z.of_nat (length src) < 2 ^ 31 ->
  emapi_deserialize dst (Some src) type param = Ret (rv, out) ->
  (rv = -1 <-> dst = None \/ EMOB_MAX <= type) /\
  (rv = -1 -> out = dst) /\
  (rv <> -1 -> 0 <= rv <= Z.of_nat (length src)).
Proof.
  intros Hty Hsrc Hmax H. change (2 ^ 31) with 2147483648 in Hmax.
  unfold emapi_deserialize, EMOB_MAX, EMOB_NULL, EMOB_HDR, EMOB_LIST_DEV in *.
  destruct dst as [obj|].
  2:{ injection H as <- <-. repeat split; intros; first [reflexivity | lia | tauto]. }
  destruct (Z.leb_spec 3 type).
  { injection H as <- <-. repeat split; intros; first [reflexivity | lia | tauto]. }
  assert (Hno : ~ (Some obj = None \/ 3 <= type)) by (intros [E|E]; [discriminate E | lia]).
  destruct (Z.eqb_spec type 0).
  { injection H as <- <-. repeat split; intros; first [lia | tauto]. }
  destruct (Z.eqb_spec type 1).
  { destruct obj as [o|l]; [|discriminate H]. cbn [as_hdr bind deref] in H.
    do 12 (destruct src as [|? src]; [discriminate H|]).
    simpl in H. injection H as <- <-. unfold EMLN_HDR. simpl length.
    repeat split; intros; first [lia | tauto]. }
  destruct (Z.eqb_spec type 2); [|lia].
  destruct obj as [o|l]; [discriminate H|]. cbn [as_dev bind deref] in H.
  apply bind_ret in H as ([k' dst'] & Hloop & H).
  cbn [fst snd] in H. injection H as <- <-.
  destruct (Z.le_gt_cases 0 (count_hint param)) as [Hn|Hn].
  - apply list_dev_loop_bounds in Hloop as (Hk & _);
      [| assumption | change (2 ^ 32) with 4294967296; lia | lia | lia].
    rewrite to_int_id by lia. repeat split; intros; first [lia | tauto].
  - replace (Z.to_nat (count_hint param)) with 0%nat in Hloop by lia.
    simpl in Hloop. injection Hloop as <- <-. rewrite to_int_id by lia.
    repeat split; intros; first [lia | tauto].
Qed.

Lemma deserialize_error_iff_witness :
  (12 = -1 <-> Some (ObjHdr hdr_zero) = None \/ EMOB_MAX <= EMOB_HDR) /\
  (12 = -1 -> Some (ObjHdr (with_rsvd test_hdr 0)) = Some (ObjHdr hdr_zero)) /\
  (12 <> -1 -> 0 <= 12 <= Z.of_nat (length (hdr_wire test_hdr 0x99))).
Proof.
  apply (deserialize_error_iff (Some (ObjHdr hdr_zero)) (hdr_wire test_hdr 0x99) EMOB_HDR
           None 12 (Some (ObjHdr (with_rsvd test_hdr 0)))).
  - unfold EMOB_HDR. lia.
  - vm_compute. repeat first [apply Forall_nil_2 | apply Forall_cons_2; [split; easy|]].
  - vm_compute. reflexivity.
  - vm_compute. reflexivity.
Defined.

(** X19: the returned count of [emapi_serialize].  Whenever the call
    returns, it returns 0 exactly when the kind is [EMOB_NULL] or [EMOB_MAX]
    or above, and then the buffer is left as it was.  Every other returned
    value is the number of bytes produced, at least 2 and at most the length
    of the buffer; the buffer keeps its length and its bytes from that count
    on. *)
Theorem serialize_count (dst : option (list Z)) (src : option object) (type : Z)
    (param : option Z) (rv : Z) (out : option (list Z)) :
  0 <= type ->
  (forall d l, src = Some (ObjDev (d :: l)) -> is_u8 (dev_len d)) ->
  emapi_serialize dst src type param = Ret (rv, out) ->
  (rv = 0 <-> type = EMOB_NULL \/ EMOB_MAX <= type) /\
  (rv = 0 -> out = dst) /\
  (rv <> 0 ->
   exists b b' : list Z,
     dst = Some b /\ out = Some b' /\ length b' = length b /\
     2 <= rv <= Z.of_nat (length b) /\
     drop (Z.to_nat rv) b' = drop (Z.to_nat rv) b).
Proof.
  intros Hty Hu8 H.
  unfold emapi_serialize, EMOB_MAX, EMOB_NULL, EMOB_HDR, EMOB_LIST_DEV in *.
  destruct (Z.eqb_spec type 0) as [E0|E0].
  { injection H as <- <-. repeat split; intros; first [reflexivity | lia | tauto]. }
  destruct (Z.leb_spec 3 type) as [E3|E3].
  { injection H as <- <-. repeat split; intros; first [reflexivity | lia | tauto]. }
  cbn [orb] in H.
  destruct (Z.eqb_spec type 1) as [E1|E1].
  { destruct src as [[h|l]|]; try discriminate H.
    destruct dst as [buf|]; [|discriminate H].
    cbn [deref as_hdr bind] in H.
    do 12 (destruct buf as [|? buf]; [discriminate H|]).
    simpl in H. injection H as <- <-. unfold EMLN_HDR.
    split; [split; intros; lia|]. split; [intros; lia|].
    intros _. eexists _, _. split; [reflexivity|]. split; [reflexivity|].
    split; [reflexivity|]. split; [simpl length; lia|].
    change (Z.to_nat 12) with 12%nat. reflexivity. }
  destruct (Z.eqb_spec type 2) as [E2|E2]; [|lia].
  destruct src as [[h|[|d l]]|]; try discriminate H.
  specialize (Hu8 d l eq_refl). unfold is_u8 in Hu8.
  destruct dst as [[|c0 [|c1 v]]|]; try discriminate H.
  cbn [deref as_dev bind] in H. simpl in H. rewrite drop_0 in H.
  unfold memcpy in H.
  destruct (Nat.leb_spec (Z.to_nat (dev_len d)) (length (dev_name d))) as [Ln|Ln];
    [|discriminate H].
  destruct (Nat.leb_spec (Z.to_nat (dev_len d)) (length v)) as [Lv|Lv]; [|discriminate H].
  simpl in H. rewrite to_int_id in H by (change (2 ^ 8) with 256 in Hu8; lia).
  injection H as <- <-.
  split; [split; intros; lia|]. split; [intros; lia|].
  intros _. eexists _, _. split; [reflexivity|]. split; [reflexivity|].
  split; [|split].
  - simpl. rewrite length_app, length_drop, length_take. lia.
  - simpl length. lia.
  - replace (Z.to_nat (dev_len d + 2)) with (S (S (Z.to_nat (dev_len d)))) by lia.
    cbn [drop]. rewrite drop_app_length' by (rewrite length_take; lia). reflexivity.
Qed.

Lemma serialize_count_witness :
  (14 = 0 <-> EMOB_LIST_DEV = EMOB_NULL \/ EMOB_MAX <= EMOB_LIST_DEV) /\
  (14 = 0 -> Some (dev_wire test_dev ++ replicate 6 0xEE) = Some (replicate 20 0xEE)) /\
  (14 <> 0 ->
   exists b b' : list Z,
     Some (replicate 20 0xEE) = Some b /\
     Some (dev_wire test_dev ++ replicate 6 0xEE) = Some b' /\
     length b' = length b /\
     2 <= 14 <= Z.of_nat (length b) /\
     drop (Z.to_nat 14) b' = drop (Z.to_nat 14) b).
Proof.
  apply (serialize_count (Some (replicate 20 0xEE)) (Some (ObjDev [test_dev]))
           EMOB_LIST_DEV None 14 (Some (dev_wire test_dev ++ replicate 6 0xEE))).
  - unfold EMOB_LIST_DEV. lia.
  - intros d l E. injection E as <- _. unfold is_u8. simpl. lia.
  - vm_compute. reflexivity.
Defined.

(** ** Names *)

(** X20: within each table a name belongs to one code.  For each of [emmt],
    [emob], [emop] and [emrc], if a code below the maximum and any other code
    get the same lookup result, the two codes are equal. *)
Theorem name_lookup_injective (u v : Z) :
  0 <= u -> 0 <= v ->
  (u < EMMT_MAX -> emmt u = emmt v -> u = v) /\
  (u < EMOB_MAX -> emob u = emob v -> u = v) /\
  (u < EMOP_MAX -> emop u = emop v -> u = v) /\
  (u < EMRC_MAX -> emrc u = emrc v -> u = v).
Proof.
  intros Hu Hv. unfold emmt, emob, emop, emrc, EMMT_MAX, EMOB_MAX, EMOP_MAX, EMRC_MAX.
  repeat split; intros Hlt E.
  all: assert (Hc : u = 0 \/ u = 1 \/ u = 2 \/ u = 3 \/ u = 4 \/ u = 5) by lia.
  all: repeat (destruct Hc as [-> | Hc]); try subst u; try lia.
  all: cbn in E.
  all: match type of E with
       | context [?m <=? ?w] => destruct (Z.leb_spec m w) as [Hm|Hm]
       end.
  all: try discriminate E.
  all: assert (Hd : v = 0 \/ v = 1 \/ v = 2 \/ v = 3 \/ v = 4 \/ v = 5) by lia.
  all: repeat (destruct Hd as [-> | Hd]); try subst v; try lia.
  all: discriminate E.
Qed.

Lemma name_lookup_injective_witness :
  (3 < EMMT_MAX -> emmt 3 = emmt 3 -> 3 = 3) /\
  (3 < EMOB_MAX -> emob 3 = emob 3 -> 3 = 3) /\
  (3 < EMOP_MAX -> emop 3 = emop 3 -> 3 = 3) /\
  (3 < EMRC_MAX -> emrc 3 = emrc 3 -> 3 = 3).
Proof. apply (name_lookup_injective 3 3); lia. Defined.

(** ** A count beyond the destination array *)

Lemma decoded_devs_length (ds : list emapi_dev) :
  forall todo : list emapi_dev, length (decoded_devs ds todo) = length todo.
Proof.
  induction ds as [|d ds IH]; intros [|t todo]; simpl; try reflexivity.
  now rewrite IH.
Qed.

(** X21: the count is not checked against the destination.  When the count
    exceeds the number of slots of the destination array (64 in
    [struct emapi_msg]) and the buffer holds more bytes after the descriptors
    that filled every slot, the decoder goes on and writes past the end of the
    array; no error is returned. *)
Theorem deserialize_past_array (ds dst : list emapi_dev) (id : Z) (rest : list Z)
    (param : option Z) :
  Forall dev_ok ds -> length ds = length dst -> Forall slot_ok dst ->
  Z.of_nat (length ds) < count_hint param -> wire_size ds < 2 ^ 32 ->
  emapi_deserialize (Some (ObjDev dst)) (Some (devs_wire ds ++ id :: rest))
    EMOB_LIST_DEV param = Fault WritePastEnd.
Proof.
  intros Hds Hlen Hdst Hnum Hsz.
  pose proof (wire_size_nonneg ds Hds) as Hw.
  enter_list_dev.
  replace (Z.to_nat (count_hint param))
    with (length ds + S (Z.to_nat (count_hint param) - S (length ds)))%nat by lia.
  pose proof (list_dev_prefix ds (S (Z.to_nat (count_hint param) - S (length ds)))
                (devs_wire ds ++ id :: rest) 0 [] dst (id :: rest)) as P.
  cbn [length app] in P. rewrite P; clear P;
    [| lia | lia | reflexivity | assumption | lia | assumption].
  cbn [Nat.add Z.add deserialize_list_dev].
  rewrite (load_at _ _ id rest)
    by (apply drop_app_length'; symmetry; apply devs_wire_length; exact Hds).
  cbn [bind].
  rewrite (lookup_ge_None_2 (decoded_devs ds dst) (length ds))
    by (rewrite decoded_devs_length; lia).
  reflexivity.
Qed.

Lemma deserialize_past_array_witness :
  emapi_deserialize (Some (ObjDev (replicate 64 dev_zero)))
    (Some (devs_wire (replicate 64 dev_zero) ++ 0x41 :: [0x00])) EMOB_LIST_DEV (Some 65)
  = Fault WritePastEnd.
Proof.
  apply (deserialize_past_array (replicate 64 dev_zero) (replicate 64 dev_zero) 0x41 [0x00]
           (Some 65)).
  - auto with emapi.
  - reflexivity.
  - auto with emapi.
  - vm_compute. reflexivity.
  - vm_compute. reflexivity.
Defined.
